(** * Follow-then-unfollow controller of [main.py]

    A shallow embedding of the list loader, the three profile actions and
    the follow / monitoring loop of [follow_then_unfollow_loop], with the
    properties the specification states about them.

    The browser, the clock, [asyncio.sleep] and the log file are reached
    through a capability interface ([Driver]); the program text above it is
    translated function by function. *)

From stdpp Require Import base list gmap sets strings.
From Stdlib Require Import ZArith NArith Ascii String Lia.

Open Scope Z_scope.
Open Scope nat_scope.
Open Scope list_scope.

(** ** Python strings *)

(** A Python [str] is a sequence of Unicode code points. *)
Definition pystr := list N.

(** An ASCII literal as a [pystr]. *)
Definition str (s : string) : pystr :=
  map N_of_ascii (list_ascii_of_string s).

(** [str.isspace] on one code point: the characters [str.strip()] removes. *)
Definition isspace (c : N) : bool :=
  ((9 <=? c) && (c <=? 13) || (28 <=? c) && (c <=? 32)
   || (c =? 133) || (c =? 160) || (c =? 5760)
   || (8192 <=? c) && (c <=? 8202)
   || (c =? 8232) || (c =? 8233) || (c =? 8239) || (c =? 8287)
   || (c =? 12288))%N.

Fixpoint drop_while (p : N -> bool) (s : pystr) : pystr :=
  match s with
  | [] => []
  | c :: s' => if p c then drop_while p s' else s
  end.

(** [s.lstrip()], [s.rstrip()] and [s.strip()] without argument. *)
Definition lstrip (s : pystr) : pystr := drop_while isspace s.
Definition rstrip (s : pystr) : pystr := rev (drop_while isspace (rev s)).
Definition strip (s : pystr) : pystr := rstrip (lstrip s).

(** [s.lstrip(chars)]: drops every leading character that occurs in [chars]. *)
Definition lstrip_chars (chars : pystr) (s : pystr) : pystr :=
  drop_while (fun c => bool_decide (c ∈ chars)) s.

Definition at_sign : N := 64%N.

(** [u.strip().lstrip("@")], the per-item normalisation of lines 201, 207,
    220 and 222. *)
Definition normalize (u : pystr) : pystr := lstrip_chars [at_sign] (strip u).

(** Truth value of a string: non-empty. *)
Definition truthy (s : pystr) : bool :=
  match s with [] => false | _ => true end.

(** Does the first (resp. last) character of [s] satisfy [p]?  False on the
    empty string. *)
Definition head_is (p : N -> bool) (s : pystr) : bool :=
  match s with c :: _ => p c | [] => false end.
Definition last_is (p : N -> bool) (s : pystr) : bool := head_is p (rev s).

Definition is_at (c : N) : bool := (c =? at_sign)%N.

Fixpoint is_prefix (p s : pystr) : bool :=
  match p, s with
  | [], _ => true
  | _ :: _, [] => false
  | a :: p', b :: s' => (a =? b)%N && is_prefix p' s'
  end.

(** [p in s] for strings. *)
Fixpoint contains (p s : pystr) : bool :=
  is_prefix p s ||
  match s with
  | [] => false
  | _ :: s' => contains p s'
  end.

(** ** Parsed JSON *)

Set Warnings "-register-all".

(** What [json.load] returns.  A [JDict] lists the bindings of the dict,
    whose keys are distinct; the payload of numbers is never inspected. *)
Inductive json : Type :=
| JNull
| JBool (b : bool)
| JInt (n : Z)
| JFloat (bits : Z)
| JStr (s : pystr)
| JList (items : list json)
| JDict (bindings : list (pystr * json)).

Definition is_str (x : json) : bool :=
  match x with JStr _ => true | _ => false end.

Definition is_dict (x : json) : bool :=
  match x with JDict _ => true | _ => false end.

(** [obj[key]] when [key in obj]. *)
Fixpoint dict_get (key : pystr) (bindings : list (pystr * json)) : option json :=
  match bindings with
  | [] => None
  | (k, v) :: rest => if decide (k = key) then Some v else dict_get key rest
  end.

(** ["username" in obj and isinstance(obj["username"], str)], giving the
    field when the test passes. *)
Definition username_field (x : json) : option pystr :=
  match x with
  | JDict bindings =>
      match dict_get (str "username") bindings with
      | Some (JStr s) => Some s
      | _ => None
      end
  | _ => None
  end.

(** [list(dict.fromkeys(l))]: the keys are inserted one by one, a key that is
    already present keeps its place. *)
Definition dict_fromkeys (l : list pystr) : list pystr :=
  foldl (fun d k => if decide (k ∈ d) then d else d ++ [k]) [] l.

(** ** List loader (lines 194-241) *)

(** The three ways list parsing gives up, under the names of the
    specification: the [else] of line 229, the empty array of line 195 and
    the two "no usernames" returns of lines 209 and 224. *)
Inductive load_error : Type :=
| FormatError
| EmptyListError
| NoUsernamesError.

Inductive load_result : Type :=
| Loaded (usernames : list pystr)
| Exit (err : load_error) (msg : string).

(** Line 201: [[u.strip().lstrip("@") for u in data if u.strip()]]. *)
Definition usernames_of_strings (data : list json) : list pystr :=
  flat_map (fun x =>
              match x with
              | JStr u => if truthy (strip u) then [normalize u] else []
              | _ => []
              end) data.

(** Lines 204-208: the [username] string of every record, normalised, then
    the empty ones dropped. *)
Definition usernames_of_dicts (data : list json) : list pystr :=
  filter (fun u => truthy u = true)
         (flat_map (fun obj =>
                      match username_field obj with
                      | Some s => [normalize s]
                      | None => []
                      end) data).

(** Lines 217-223: strings and records with a [username] string, normalised,
    the empty ones dropped, duplicates removed. *)
Definition usernames_of_mixed (data : list json) : list pystr :=
  dict_fromkeys
    (filter (fun u => truthy u = true)
            (flat_map (fun it =>
                         match it with
                         | JStr s => [normalize s]
                         | _ => match username_field it with
                                | Some s => [normalize s]
                                | None => []
                                end
                         end) data)).

Definition msg_empty : string :=
  "[INFO] The follower list is empty (0 entries). Exiting.".
Definition msg_no_username_objects : string :=
  "[ERROR] followers.json contains objects but none had a 'username' string field. Exiting.".
Definition msg_no_usernames : string :=
  "[ERROR] Could not parse any usernames from followers.json. Exiting.".
Definition msg_not_array : string :=
  "[ERROR] followers.json is not an array. It must be a JSON array of strings or objects. Exiting.".

(** Lines 194-233: the value of [usernames] when control reaches line 241,
    or the early return taken. *)
Definition parse_list (data : json) : load_result :=
  match data with
  | JList items =>
      match items with
      | [] => Exit EmptyListError msg_empty
      | _ =>
          if forallb is_str items then Loaded (usernames_of_strings items)
          else if forallb is_dict items then
            match usernames_of_dicts items with
            | [] => Exit NoUsernamesError msg_no_username_objects
            | usernames => Loaded usernames
            end
          else
            match usernames_of_mixed items with
            | [] => Exit NoUsernamesError msg_no_usernames
            | usernames => Loaded usernames
            end
      end
  | _ => Exit FormatError msg_not_array
  end.

(** The list loader: [parse_list] followed by the de-duplication of
    line 241. *)
Definition load_usernames (data : json) : load_result :=
  match parse_list data with
  | Loaded usernames => Loaded (dict_fromkeys usernames)
  | Exit err msg => Exit err msg
  end.

Definition is_list (x : json) : bool :=
  match x with JList _ => true | _ => false end.

(** A record offers a usable username when it has a [username] string that
    is not empty once normalised. *)
Definition usable_username (x : json) : bool :=
  match username_field x with
  | Some s => truthy (normalize s)
  | None => false
  end.

(** The specification's reading of the per-item normalisation: trim, then
    strip one leading "@". *)
Definition spec_normalize (u : pystr) : pystr :=
  match strip u with
  | c :: s' => if (c =? at_sign)%N then s' else c :: s'
  | [] => []
  end.

(** ** Exceptions and outcomes *)

(** The exception classes the program can meet.  [PlaywrightTimeoutError]
    is a subclass of Playwright's [Error]; [KeyboardInterrupt] and
    [CancelledError] derive from [BaseException] only. *)
Inductive exn : Type :=
| PlaywrightTimeoutError
| PlaywrightError
| OSError
| ZeroDivisionError
| KeyboardInterrupt
| CancelledError.

(** [except Exception]. *)
Definition is_Exception (e : exn) : bool :=
  match e with
  | KeyboardInterrupt | CancelledError => false
  | _ => true
  end.

(** [except PlaywrightTimeoutError]. *)
Definition is_PlaywrightTimeoutError (e : exn) : bool :=
  match e with PlaywrightTimeoutError => true | _ => false end.

(** [except KeyboardInterrupt]. *)
Definition is_KeyboardInterrupt (e : exn) : bool :=
  match e with KeyboardInterrupt => true | _ => false end.

(** What a call into the outside world gives back. *)
Inductive result (A : Type) : Type :=
| Returns (a : A)
| Raises (e : exn).
Arguments Returns {A} a.
Arguments Raises {A} e.

(** Outcome of running a piece of the program: a value, an exception in
    flight, or still running when the passes allotted to the monitoring
    loop are used up. *)
Inductive res (A : Type) : Type :=
| Ok (a : A)
| Raise (e : exn)
| OutOfFuel.
Arguments Ok {A} a.
Arguments Raise {A} e.
Arguments OutOfFuel {A}.

(** ** Log entries and observable events *)

(** The dict handed to [log_action]; the [ts] field is added by the writer. *)
Inductive log_entry : Type :=
| follow_attempt (username : pystr) (performed : bool) (index total : nat)
| unfollow_on_followback (username : pystr) (unfollowed : bool)
| check_followback (username : pystr) (follows_me : bool)
| error (username : pystr) (e : exn).

(** What the controller does that can be seen from outside, in order.  A
    [Print] carries the text of the message with its placeholders. *)
Inductive event : Type :=
| Print (msg : string)
| Logged (entry : log_entry)
| ContextClose
| BrowserClose
| PlaywrightStop.

#[global] Instance exn_eq_dec : EqDecision exn.
Proof. solve_decision. Defined.
#[global] Instance log_entry_eq_dec : EqDecision log_entry.
Proof. solve_decision. Defined.
#[global] Instance event_eq_dec : EqDecision event.
Proof. solve_decision. Defined.

(** ** The outside world *)

(** The Playwright page, context and browser, [asyncio.sleep] and the log
    file, as operations on a world [W].  A locator is named by its selector;
    [i] is the index given to [nth].  The order in which [list(a_set)] lists
    a set of strings is not fixed by the language (it changes with the hash
    seed of the process): it is read off the world, and is some arrangement
    of the members of the set. *)
Class Driver (W : Type) : Type := {
  page_goto : pystr -> Z -> W -> result unit * W;
  page_wait_for_selector : string -> Z -> W -> result unit * W;
  page_query_selector : string -> W -> result bool * W;
  locator_count : string -> W -> result nat * W;
  locator_is_visible : string -> nat -> W -> result bool * W;
  locator_inner_text : string -> nat -> W -> result pystr * W;
  locator_scroll_into_view_if_needed : string -> nat -> W -> result unit * W;
  locator_click : string -> nat -> W -> result unit * W;
  (** [asyncio.sleep(base + random.uniform(lo, hi))] *)
  asyncio_sleep : Z -> Z -> Z -> W -> result unit * W;
  (** stamp the entry and append one line to the log file *)
  log_append : log_entry -> W -> result unit * W;
  (** [await context.close()] and [await browser.close()] *)
  close_context : W -> result unit * W;
  close_browser : W -> result unit * W;
  (** [list(a_set)] *)
  list_set : W -> gset pystr -> list pystr;
  list_set_perm : forall w fs, list_set w fs ≡ₚ elements fs
}.

(** ** Program state and the monad of the controller *)

Record st (W : Type) : Type := St {
  world : W;
  trace : list event;
  followed_set : gset pystr
}.
Arguments St {W} world trace followed_set.
Arguments world {W} s.
Arguments trace {W} s.
Arguments followed_set {W} s.

Definition M (W A : Type) : Type := st W -> res A * st W.

Definition ret {W A : Type} (a : A) : M W A := fun s => (Ok a, s).

Definition raise {W A : Type} (e : exn) : M W A := fun s => (Raise e, s).

Definition out_of_fuel {W A : Type} : M W A := fun s => (OutOfFuel, s).

Definition bind {W A B : Type} (c : M W A) (k : A -> M W B) : M W B :=
  fun s =>
    match c s with
    | (Ok a, s') => k a s'
    | (Raise e, s') => (Raise e, s')
    | (OutOfFuel, s') => (OutOfFuel, s')
    end.

Declare Scope prog_scope.
Delimit Scope prog_scope with prog.
Notation "x <- c ;; k" := (bind c (fun x => k))
  (at level 100, c at next level, right associativity) : prog_scope.
Notation "c ;; k" := (bind c (fun _ => k))
  (at level 100, right associativity) : prog_scope.
Open Scope prog_scope.

(** [try: body  except <catches> as e: handler e]. *)
Definition try_except {W A : Type} (body : M W A) (catches : exn -> bool)
    (handler : exn -> M W A) : M W A :=
  fun s =>
    match body s with
    | (Raise e, s') => if catches e then handler e s' else (Raise e, s')
    | r => r
    end.

(** [try: x = body  except <catches> as e: handler e (which returns)] and
    then the rest of the function, [k x]. *)
Definition try_or_return {W A B : Type} (body : M W A) (catches : exn -> bool)
    (handler : exn -> M W B) (k : A -> M W B) : M W B :=
  fun s =>
    match body s with
    | (Ok a, s') => k a s'
    | (Raise e, s') => if catches e then handler e s' else (Raise e, s')
    | (OutOfFuel, s') => (OutOfFuel, s')
    end.

(** [try: body  finally: cleanup]. *)
Definition try_finally {W A : Type} (body : M W A) (cleanup : M W unit) : M W A :=
  fun s =>
    match body s with
    | (OutOfFuel, s') => (OutOfFuel, s')
    | (r, s') =>
        match cleanup s' with
        | (Ok _, s'') => (r, s'')
        | (Raise e, s'') => (Raise e, s'')
        | (OutOfFuel, s'') => (OutOfFuel, s'')
        end
    end.

(** A call into the world. *)
Definition call {W A : Type} (op : W -> result A * W) : M W A :=
  fun s =>
    match op (world s) with
    | (Returns a, w) => (Ok a, St w (trace s) (followed_set s))
    | (Raises e, w) => (Raise e, St w (trace s) (followed_set s))
    end.

Definition emit {W : Type} (ev : event) : M W unit :=
  fun s => (Ok tt, St (world s) (trace s ++ [ev]) (followed_set s)).

Definition print {W : Type} (msg : string) : M W unit := emit (Print msg).

Definition get_followed_set {W : Type} : M W (gset pystr) :=
  fun s => (Ok (followed_set s), s).

Definition set_followed_set {W : Type} (fs : gset pystr) : M W unit :=
  fun s => (Ok tt, St (world s) (trace s) fs).

(** [followed_set.discard(uname)]. *)
Definition discard {W : Type} (uname : pystr) : M W unit :=
  fun s => (Ok tt, St (world s) (trace s) (followed_set s ∖ {[uname]})).

(** [a % b] on Python integers. *)
Definition py_mod {W : Type} (a b : Z) : M W Z :=
  if (b =? 0)%Z then raise ZeroDivisionError else ret (a mod b)%Z.

(** ** Defaults (lines 24-32) *)

Definition DEFAULT_INTERVAL : Z := 3600.
Definition DEFAULT_BATCH_SIZE : Z := 10.
Definition MIN_DELAY_BETWEEN_ACTIONS : Z := 5.
Definition MAX_DELAY_BETWEEN_ACTIONS : Z := 12.
Definition BATCH_PAUSE : Z := 60.

Section Controller.

Context {W : Type} {D : Driver W}.

(** [log_action]: the entry reaches the log once the append has returned. *)
Definition log_action (entry : log_entry) : M W unit :=
  call (log_append entry);;
  emit (Logged entry).

(** [await context.close()] and [await browser.close()]: the context, or
    the browser, is closed once the call has returned. *)
Definition context_close : M W unit :=
  call close_context;;
  emit ContextClose.
Definition browser_close : M W unit :=
  call close_browser;;
  emit BrowserClose.

Definition profile_url (uname : pystr) : pystr :=
  str "https://www.instagram.com/" ++ uname ++ str "/".

(** ** Action primitives (lines 68-151) *)

Definition follow_sel : string :=
  "button:has-text('Follow'), button:has-text('Follow back')".

(** The [for i in range(count)] of lines 84-93, [return False] included. *)
Fixpoint follow_scan (indices : list nat) : M W bool :=
  match indices with
  | [] => ret false
  | i :: rest =>
      visible <- call (locator_is_visible follow_sel i);;
      if visible then
        raw <- call (locator_inner_text follow_sel i);;
        let text := strip raw in
        if contains (str "Follow") text
           && negb (contains (str "Following") text)
           && negb (contains (str "Requested") text)
        then
          call (locator_scroll_into_view_if_needed follow_sel i);;
          call (locator_click follow_sel i);;
          print "[ACTION] Followed {uname}";;
          ret true
        else follow_scan rest
      else follow_scan rest
  end.

Definition follow_profile (uname : pystr) : M W bool :=
  try_or_return (call (page_goto (profile_url uname) 60000%Z)) is_Exception
    (fun _ => print "[ERROR] Couldn't load profile {uname}: {e}";; ret false)
    (fun _ =>
  try_or_return (call (page_wait_for_selector "header" 20000%Z))
    is_PlaywrightTimeoutError
    (fun _ => print "[WARN] Profile header did not load for {uname}";; ret false)
    (fun _ =>
  try_except
    (count <- call (locator_count follow_sel);;
     follow_scan (seq 0 count))
    is_Exception
    (fun _ => print "[ERROR] Exception trying to follow {uname}: {e}";;
              ret false))).

Definition is_user_following_me (uname : pystr) : M W bool :=
  try_or_return (call (page_goto (profile_url uname) 60000%Z)) is_Exception
    (fun _ =>
       print "[ERROR] Couldn't load profile {uname} for follow-back check: {e}";;
       ret false)
    (fun _ =>
  try_or_return (call (page_wait_for_selector "header" 15000%Z))
    is_PlaywrightTimeoutError
    (fun _ => ret false)
    (fun _ =>
  try_except
    (found <- call (page_query_selector "text=Follows you");;
     if found then ret true
     else
       found' <- call (page_query_selector "header div:has-text('Follows you')");;
       if found' then ret true else ret false)
    is_Exception
    (fun _ => ret false))).

Definition unfollow_sel : string :=
  "button:has-text('Following'), button:has-text('Requested')".
Definition confirm_sel : string := "button:has-text('Unfollow')".

(** The [for i in range(cnt)] of lines 133-148.  The inner [try] yields
    [Some b] where the source returns [b] and [None] where control falls
    through to the next button. *)
Fixpoint unfollow_scan (indices : list nat) : M W bool :=
  match indices with
  | [] => ret false
  | i :: rest =>
      visible <- call (locator_is_visible unfollow_sel i);;
      if visible then
        call (locator_scroll_into_view_if_needed unfollow_sel i);;
        call (locator_click unfollow_sel i);;
        returned <-
          try_except
            (call (page_wait_for_selector confirm_sel 8000%Z);;
             confirm_visible <- call (locator_is_visible confirm_sel 0);;
             if confirm_visible then
               call (locator_click confirm_sel 0);;
               print "[ACTION] Unfollowed {uname} (confirmed)";;
               ret (Some true)
             else ret None)
            is_PlaywrightTimeoutError
            (fun _ =>
               print "[ACTION] Clicked following/requested button for {uname} (no confirm found).";;
               ret (Some true));;
        match returned with
        | Some b => ret b
        | None => unfollow_scan rest
        end
      else unfollow_scan rest
  end.

Definition unfollow_profile (uname : pystr) : M W bool :=
  try_or_return (call (page_goto (profile_url uname) 60000%Z)) is_Exception
    (fun _ =>
       print "[ERROR] Couldn't load profile {uname} for unfollow: {e}";;
       ret false)
    (fun _ =>
  try_or_return (call (page_wait_for_selector "header" 15000%Z))
    is_PlaywrightTimeoutError
    (fun _ => print "[WARN] Header didn't load for unfollowing {uname}";;
              ret false)
    (fun _ =>
  try_except
    (cnt <- call (locator_count unfollow_sel);;
     unfollow_scan (seq 0 cnt))
    is_Exception
    (fun _ => print "[ERROR] Exception while trying to unfollow {uname}: {e}";;
              ret false))).

(** ** FOLLOWING_PHASE (lines 248-254) *)

(** The loop over [enumerate(usernames, start=1)], from position [idx] on;
    [total] is [len(usernames)]. *)
Fixpoint follow_pass (total : nat) (batch_size : Z) (idx : nat)
    (usernames : list pystr) : M W unit :=
  match usernames with
  | [] => ret tt
  | uname :: rest =>
      performed <- follow_profile uname;;
      log_action (follow_attempt uname performed idx total);;
      call (asyncio_sleep 0 MIN_DELAY_BETWEEN_ACTIONS MAX_DELAY_BETWEEN_ACTIONS);;
      r <- py_mod (Z.of_nat idx) batch_size;;
      (if (r =? 0)%Z then
         print "[INFO] Completed {idx} follows; pausing {BATCH_PAUSE}s before next batch...";;
         call (asyncio_sleep BATCH_PAUSE 1 10)
       else ret tt);;
      follow_pass total batch_size (S idx) rest
  end.

(** ** MONITORING_PHASE (lines 262-283) *)

(** Body of [for uname in list(followed_set)], lines 268-280. *)
Definition check_user (uname : pystr) : M W unit :=
  try_except
    (follows_me <- is_user_following_me uname;;
     if follows_me then
       unfollowed <- unfollow_profile uname;;
       log_action (unfollow_on_followback uname unfollowed);;
       if unfollowed then discard uname else ret tt
     else log_action (check_followback uname false))
    is_Exception
    (fun e =>
       print "[WARN] Error checking/unfollowing {uname}: {e}";;
       log_action (error uname e));;
  call (asyncio_sleep 0 8 18).

Fixpoint for_each (l : list pystr) (body : pystr -> M W unit) : M W unit :=
  match l with
  | [] => ret tt
  | x :: rest => body x;; for_each rest body
  end.

(** [list(fs)]. *)
Definition list_of (fs : gset pystr) : M W (list pystr) :=
  fun s => (Ok (list_set (world s) fs), s).

(** One pass, lines 266-283, over the working set [fs] read at its start. *)
Definition monitor_pass (interval : Z) (fs : gset pystr) : M W unit :=
  print "[CHECK] Monitoring pass started (checking {len(followed_set)} users)...";;
  unames <- list_of fs;;
  for_each unames check_user;;
  print "[CHECK] Monitoring pass complete at {now_iso()}. Sleeping {interval}s before next pass.";;
  call (asyncio_sleep interval 0 60).

(** [while True] of line 262; [fuel] bounds the number of passes, the loop is
    still running when it is used up. *)
Fixpoint monitor_loop (interval : Z) (fuel : nat) : M W unit :=
  match fuel with
  | 0 => out_of_fuel
  | S fuel' =>
      fs <- get_followed_set;;
      if decide (fs = ∅) then
        print "[INFO] No more users left to monitor. Exiting."
      else
        monitor_pass interval fs;;
        monitor_loop interval fuel'
  end.

(** Lines 259-289. *)
Definition monitoring (usernames : list pystr) (interval : Z) (fuel : nat)
    : M W unit :=
  set_followed_set (list_to_set usernames);;
  print "[INFO] Entering monitoring loop. Will check every {interval} seconds.";;
  try_finally
    (try_except (monitor_loop interval fuel) is_KeyboardInterrupt
       (fun _ => print "[INFO] Interrupted by user. Exiting monitoring loop."))
    (context_close;; browser_close).

(** ** The controller (lines 182-289) *)

(** What the controller finds at [list_file]: nothing, a file whose reading
    or parsing raises, or parsed JSON. *)
Inductive list_file : Type :=
| NoSuchFile
| Unreadable (e : exn)
| Content (data : json).

Definition close_and_return (msg : string) : M W unit :=
  print msg;; context_close;; browser_close;; ret tt.

(** The handler of line 236, [except Exception as e]. *)
Definition load_failed : M W unit :=
  close_and_return "[ERROR] Failed to load/parse list file: {e}".

(** Lines 182-289: the body of the [async with] block once the session
    (context and browser) is open.  The early returns of lines 196-234 sit
    inside the [try] of line 193, so an [Exception] raised by one of their
    closes is handled at line 236. *)
Definition follow_and_monitor (file : list_file) (interval : Z)
    (batch_size : Z) (fuel : nat) : M W unit :=
  match file with
  | NoSuchFile => close_and_return "[ERROR] Followers list file not found: {list_file}"
  | Unreadable e =>
      if is_Exception e then load_failed else raise e
  | Content data =>
      match load_usernames data with
      | Exit _ msg =>
          try_except (close_and_return msg) is_Exception (fun _ => load_failed)
      | Loaded usernames =>
          print "[INFO] Loaded {len(usernames)} usernames to follow/monitor.";;
          print "[INFO] Starting follow pass for {len(usernames)} users (batch size {batch_size})...";;
          follow_pass (List.length usernames) batch_size 1 usernames;;
          print "[INFO] Initial follow pass finished.";;
          monitoring usernames interval fuel
      end
  end.

(** [follow_then_unfollow_loop] from line 182 on.  Whichever way control
    leaves the [async with async_playwright()] block of line 155, by a
    [return], by falling off its end or by an exception, the context
    manager stops Playwright. *)
Definition follow_then_unfollow_loop (file : list_file) (interval : Z)
    (batch_size : Z) (fuel : nat) : M W unit :=
  try_finally (follow_and_monitor file interval batch_size fuel)
              (emit PlaywrightStop).

End Controller.

(** ** A scripted page *)

(** A script that answers every call of one kind the same way. *)
Record sim : Type := Sim {
  sim_goto : result unit;
  sim_wait : string -> result unit;
  sim_query : string -> result bool;
  sim_count : result nat;
  sim_visible : result bool;
  sim_text : result pystr;
  sim_click : result unit;
  sim_sleep : result unit;
  sim_log : result unit
}.

(** The driver that plays a script; its world has no state.  Closing the
    context and the browser works, and a set is listed as [elements] has
    it. *)
Definition sim_driver (script : sim) : Driver unit := {|
  page_goto := fun _ _ w => (sim_goto script, w);
  page_wait_for_selector := fun sel _ w => (sim_wait script sel, w);
  page_query_selector := fun sel w => (sim_query script sel, w);
  locator_count := fun _ w => (sim_count script, w);
  locator_is_visible := fun _ _ w => (sim_visible script, w);
  locator_inner_text := fun _ _ w => (sim_text script, w);
  locator_scroll_into_view_if_needed := fun _ _ w => (Returns tt, w);
  locator_click := fun _ _ w => (sim_click script, w);
  asyncio_sleep := fun _ _ _ w => (sim_sleep script, w);
  log_append := fun _ w => (sim_log script, w);
  close_context := fun w => (Returns tt, w);
  close_browser := fun w => (Returns tt, w);
  list_set := fun _ fs => elements fs;
  list_set_perm := fun _ fs => reflexivity (elements fs)
|}.

(** The driver [D] with a context whose [close()] raises [e]. *)
Definition closing_fails {W : Type} (e : exn) (D : Driver W) : Driver W := {|
  page_goto := page_goto;
  page_wait_for_selector := page_wait_for_selector;
  page_query_selector := page_query_selector;
  locator_count := locator_count;
  locator_is_visible := locator_is_visible;
  locator_inner_text := locator_inner_text;
  locator_scroll_into_view_if_needed := locator_scroll_into_view_if_needed;
  locator_click := locator_click;
  asyncio_sleep := asyncio_sleep;
  log_append := log_append;
  close_context := fun w => (Raises e, w);
  close_browser := close_browser;
  list_set := list_set;
  list_set_perm := list_set_perm
|}.

(** A driver [D] whose world has no state, with a context whose [close()]
    raises [e] the first time it is called and returns from then on; the
    world records whether it has been called. *)
Definition closing_fails_once (e : exn) (D : Driver unit) : Driver bool := {|
  page_goto := fun url timeout w =>
    ((page_goto (Driver := D) url timeout tt).1, w);
  page_wait_for_selector := fun sel timeout w =>
    ((page_wait_for_selector (Driver := D) sel timeout tt).1, w);
  page_query_selector := fun sel w =>
    ((page_query_selector (Driver := D) sel tt).1, w);
  locator_count := fun sel w => ((locator_count (Driver := D) sel tt).1, w);
  locator_is_visible := fun sel i w =>
    ((locator_is_visible (Driver := D) sel i tt).1, w);
  locator_inner_text := fun sel i w =>
    ((locator_inner_text (Driver := D) sel i tt).1, w);
  locator_scroll_into_view_if_needed := fun sel i w =>
    ((locator_scroll_into_view_if_needed (Driver := D) sel i tt).1, w);
  locator_click := fun sel i w =>
    ((locator_click (Driver := D) sel i tt).1, w);
  asyncio_sleep := fun base lo hi w =>
    ((asyncio_sleep (Driver := D) base lo hi tt).1, w);
  log_append := fun entry w => ((log_append (Driver := D) entry tt).1, w);
  close_context := fun called : bool =>
    if called then (Returns tt, true) else (Raises e, true);
  close_browser := fun w => ((close_browser (Driver := D) tt).1, w);
  list_set := fun _ fs => list_set (Driver := D) tt fs;
  list_set_perm := fun _ fs => list_set_perm (Driver := D) tt fs
|}.


(** Every profile loads, shows one visible button reading [text], every
    click lands, and [follows_you] tells whether "Follows you" is shown. *)
Definition cooperative (text : pystr) (follows_you : bool) : sim :=
  Sim (Returns tt) (fun _ => Returns tt) (fun _ => Returns follows_you)
      (Returns 1) (Returns true) (Returns text) (Returns tt)
      (Returns tt) (Returns tt).

(** As [cooperative], but waiting for [header] fails with a Playwright
    error that is not a timeout (a crashed or closed page). *)
Definition header_crash : sim :=
  Sim (Returns tt)
      (fun sel => if String.eqb sel "header" then Raises PlaywrightError
                  else Returns tt)
      (fun _ => Returns true)
      (Returns 1) (Returns true) (Returns (str "Follow")) (Returns tt)
      (Returns tt) (Returns tt).

(** The state on entry: nothing printed or logged yet. *)
Definition start : st unit := St tt [] ∅.

(** The entries written to the log, oldest first. *)
Definition log_of (t : list event) : list log_entry :=
  flat_map (fun ev => match ev with Logged entry => [entry] | _ => [] end) t.

Definition is_follow_attempt (entry : log_entry) : bool :=
  match entry with follow_attempt _ _ _ _ => true | _ => false end.

Definition entry_username (entry : log_entry) : pystr :=
  match entry with
  | follow_attempt u _ _ _ => u
  | unfollow_on_followback u _ => u
  | check_followback u _ => u
  | error u _ => u
  end.


(** ** Vocabulary of the properties *)

(** [u] is the normal form of some string. *)
Definition normalized (u : pystr) : Prop := exists s, u = normalize s.

(** The [follow_attempt] entries of a follow pass that starts at position
    [idx], given what each [follow_profile] call returned. *)
Fixpoint attempts (total idx : nat) (usernames : list pystr)
    (performed : list bool) : list log_entry :=
  match usernames, performed with
  | u :: us, b :: bs => follow_attempt u b idx total :: attempts total (S idx) us bs
  | _, _ => []
  end.

(** [c] takes every state to one related to it by [R], whatever its
    outcome. *)
Definition Pres {W A : Type} (R : st W -> st W -> Prop) (c : M W A) : Prop :=
  forall s, R s (c s).2.

(** Working set untouched. *)
Definition same_set {W : Type} (s s' : st W) : Prop :=
  followed_set s' = followed_set s.

(** The collaborators of the follow pass return normally: [follow_profile]
    with either boolean, the log writer and [asyncio.sleep]. *)
Definition follow_returns {W : Type} {D : Driver W} : Prop :=
  forall u (s : st W), exists b s', follow_profile u s = (Ok b, s').
Definition log_returns {W : Type} {D : Driver W} : Prop :=
  forall entry (w : W), exists w', log_append entry w = (Returns tt, w').
Definition sleep_returns {W : Type} {D : Driver W} : Prop :=
  forall base lo hi (w : W),
  exists w', asyncio_sleep base lo hi w = (Returns tt, w').

(** Closing the context and closing the browser return normally. *)
Definition closes_return {W : Type} {D : Driver W} : Prop :=
  forall w : W,
    (exists w', close_context w = (Returns tt, w'))
    /\ (exists w', close_browser w = (Returns tt, w')).

(** No username other than [uname] leaves the working set. *)
Definition drops {W : Type} (uname : pystr) (s s' : st W) : Prop :=
  followed_set s ∖ {[uname]} ⊆ followed_set s'.

(** Nothing logged, working set untouched. *)
Definition quiet {W : Type} (s s' : st W) : Prop :=
  followed_set s' = followed_set s /\ log_of (trace s') = log_of (trace s).

(** What monitoring may do to the state: append events, and drop a username
    from the working set only with an [unfollow_on_followback] entry that
    records a successful unfollow among the appended events. *)
Definition monitored {W : Type} (s s' : st W) : Prop :=
  exists t,
    trace s' = trace s ++ t
    /\ followed_set s' ⊆ followed_set s
    /\ forall u, u ∈ followed_set s -> u ∉ followed_set s' ->
                 Logged (unfollow_on_followback u true) ∈ t.

(** Relations on states that calls into the world and prints respect. *)
Class Frame {W : Type} (R : st W -> st W -> Prop) : Prop := {
  frame_preorder :: PreOrder R;
  frame_world : forall s w, R s (St w (trace s) (followed_set s));
  frame_print : forall s msg,
      R s (St (world s) (trace s ++ [Print msg]) (followed_set s))
}.

(** The script of the examples: every profile loads and shows one visible
    "Follow" button, and "Follows you" is shown. *)
Definition friendly : sim := cooperative (str "Follow") true.

(** The same page when nobody follows back. *)
Definition aloof : sim := cooperative (str "Follow") false.

(** A state in the middle of monitoring, with ["a"] under watch. *)
Definition watching_a : st unit := St tt [] {[ str "a" ]}.

(** A string item that is empty once trimmed. *)
Definition is_blank_str (x : json) : bool :=
  match x with JStr u => negb (truthy (strip u)) | _ => false end.

(** The raw username an item of the list carries: a string itself, or the
    [username] string of a record. *)
Definition item_username (x : json) : option pystr :=
  match x with
  | JStr s => Some s
  | _ => username_field x
  end.



(** A page on which the user interrupts the program during a navigation. *)
Definition interrupted : sim :=
  Sim (Raises KeyboardInterrupt) (fun _ => Returns tt) (fun _ => Returns false)
      (Returns 0) (Returns false) (Returns []) (Returns tt)
      (Returns tt) (Returns tt).

(** The state in which the monitoring loop is entered (lines 259-261). *)
Definition monitoring_entry {W : Type} (usernames : list pystr) (s : st W) : st W :=
  St (world s)
     (trace s ++
      [Print "[INFO] Entering monitoring loop. Will check every {interval} seconds."])
     (list_to_set usernames).

(** The outcome and the state with which the [finally] of line 287 is
    entered, given those of the loop: line 285 has turned a
    [KeyboardInterrupt] into its message. *)
Definition at_finally {W : Type} (r : res unit) (s : st W) : res unit * st W :=
  match r with
  | Raise KeyboardInterrupt =>
      (Ok tt,
       St (world s)
          (trace s ++ [Print "[INFO] Interrupted by user. Exiting monitoring loop."])
          (followed_set s))
  | _ => (r, s)
  end.

(** [u] is not lost from the working set. *)
Definition keeps {W : Type} (u : pystr) (s s' : st W) : Prop :=
  u ∈ followed_set s -> u ∈ followed_set s'.

(** Every user is seen to follow back, and every unfollow goes through. *)
Definition everyone_follows_back {W : Type} {D : Driver W} : Prop :=
  (forall u (s : st W), exists s', is_user_following_me u s = (Ok true, s'))
  /\ (forall u (s : st W), exists s', unfollow_profile u s = (Ok true, s')).



(** The message printed before a batch pause (line 253), and the number of
    times it occurs in a trace. *)
Definition batch_pause_message : string :=
  "[INFO] Completed {idx} follows; pausing {BATCH_PAUSE}s before next batch...".
Definition pauses (t : list event) : nat :=
  List.length (filter (fun ev => ev = Print batch_pause_message) t).

(** No batch pause announced. *)
Definition unpaused {W : Type} (s s' : st W) : Prop :=
  pauses (trace s') = pauses (trace s).

(** What monitoring may log when the working set lies within the usernames
    [T]: the set stays within [T], and the entries appended are not
    [follow_attempt]s and are about usernames of [T]. *)
Definition monitoring_log {W : Type} (T : gset pystr) (s s' : st W) : Prop :=
  followed_set s ⊆ T ->
  followed_set s' ⊆ T
  /\ exists new,
      log_of (trace s') = log_of (trace s) ++ new
      /\ Forall (fun entry =>
                   is_follow_attempt entry = false
                   /\ entry_username entry ∈ T) new.

(** ** Login check (lines 43-55) *)

(** The page of the login check: the driver of the controller, with
    [page.wait_for_timeout]. *)
Class LoginDriver (W : Type) : Type := {
  login_driver :: Driver W;
  page_wait_for_timeout : Z -> W -> result unit * W
}.

Definition home_url : pystr := str "https://www.instagram.com/".

(** [navigate_home_and_check_login]. *)
Definition navigate_home_and_check_login {W : Type} {D : LoginDriver W}
    : M W bool :=
  try_except (call (page_goto home_url 45000%Z)) is_Exception
    (fun _ => print "[WARN] Couldn't reach instagram.com to check login: {e}");;
  call (page_wait_for_timeout 800%Z);;
  profile <- call (page_query_selector "svg[aria-label='Profile']");;
  if profile then ret true
  else
    nav <- call (page_query_selector "nav");;
    if nav then
      login <- call (page_query_selector "text=Log in");;
      if negb login then ret true else ret false
    else ret false.

(** The scripted page with a [wait_for_timeout] that returns. *)
Definition sim_login_driver (script : sim) : LoginDriver unit := {|
  login_driver := sim_driver script;
  page_wait_for_timeout := fun _ w => (Returns tt, w)
|}.

(** A logged-out page that cannot even be reached: no profile icon, a
    navigation bar, and a "Log in" link. *)
Definition logged_out : sim :=
  Sim (Raises PlaywrightError) (fun _ => Returns tt)
      (fun sel => if String.eqb sel "svg[aria-label='Profile']"
                  then Returns false else Returns true)
      (Returns 0) (Returns false) (Returns []) (Returns tt)
      (Returns tt) (Returns tt).

(** * Properties *)

(** ** Strings *)

Section Strings.

Implicit Types (p : N -> bool) (s t u : pystr) (c : N).

Lemma drop_while_split p s :
  exists pre, s = pre ++ drop_while p s /\ Forall (fun c => p c = true) pre.
Proof.
  induction s as [|c s IH]; simpl.
  - exists []. split; [reflexivity | constructor].
  - destruct (p c) eqn:Hc.
    + destruct IH as (pre & Heq & Hall).
      exists (c :: pre). split.
      * simpl. congruence.
      * constructor; assumption.
    + exists []. split; [reflexivity | constructor].
Qed.

Lemma drop_while_head p s : head_is p (drop_while p s) = false.
Proof.
  induction s as [|c s IH]; simpl; [reflexivity|].
  destruct (p c) eqn:Hc; [exact IH | simpl; exact Hc].
Qed.

Lemma drop_while_id p s : head_is p s = false -> drop_while p s = s.
Proof. destruct s as [|c s]; simpl; [reflexivity|]. intros ->. reflexivity. Qed.

Lemma head_is_app p s t : s <> [] -> head_is p (s ++ t) = head_is p s.
Proof. destruct s; [congruence | reflexivity]. Qed.

Lemma rstrip_split s :
  exists suf, s = rstrip s ++ suf /\ Forall (fun c => isspace c = true) suf.
Proof.
  unfold rstrip.
  destruct (drop_while_split isspace (rev s)) as (pre & Heq & Hall).
  exists (rev pre). split.
  - rewrite <- rev_app_distr, <- Heq, rev_involutive. reflexivity.
  - apply Forall_forall. intros c Hc.
    rewrite Forall_forall in Hall. apply Hall.
    apply list_elem_of_In, in_rev, list_elem_of_In. exact Hc.
Qed.

Lemma rstrip_last s : last_is isspace (rstrip s) = false.
Proof.
  unfold last_is, rstrip. rewrite rev_involutive. apply drop_while_head.
Qed.

Lemma rstrip_head s :
  head_is isspace s = false -> head_is isspace (rstrip s) = false.
Proof.
  intros Hs. destruct (rstrip_split s) as (suf & Heq & _).
  destruct (rstrip s) as [|c t] eqn:Hr; [reflexivity|].
  rewrite Heq in Hs. exact Hs.
Qed.

Lemma rstrip_id s : last_is isspace s = false -> rstrip s = s.
Proof.
  unfold last_is, rstrip. intros H.
  rewrite drop_while_id by exact H. apply rev_involutive.
Qed.

(** [strip] removes a run of whitespace at each end and leaves a string
    that neither starts nor ends with whitespace. *)
Lemma strip_spec u :
  exists l r,
    u = l ++ strip u ++ r
    /\ Forall (fun c => isspace c = true) l
    /\ Forall (fun c => isspace c = true) r
    /\ head_is isspace (strip u) = false
    /\ last_is isspace (strip u) = false.
Proof.
  unfold strip.
  destruct (drop_while_split isspace u) as (l & Hl & Hlall).
  destruct (rstrip_split (lstrip u)) as (r & Hr & Hrall).
  exists l, r. repeat split; try assumption.
  - unfold lstrip in *. rewrite <- Hr. exact Hl.
  - apply rstrip_head, drop_while_head.
  - apply rstrip_last.
Qed.

Lemma strip_id s :
  head_is isspace s = false -> last_is isspace s = false -> strip s = s.
Proof.
  intros Hh Hl. unfold strip, lstrip.
  rewrite drop_while_id by exact Hh. apply rstrip_id, Hl.
Qed.

Lemma lstrip_chars_at s : lstrip_chars [at_sign] s = drop_while is_at s.
Proof.
  unfold lstrip_chars. induction s as [|c s IH]; simpl; [reflexivity|].
  unfold is_at at 1.
  destruct (N.eqb_spec c at_sign) as [->|Hne].
  - rewrite bool_decide_eq_true_2 by (apply list_elem_of_here). exact IH.
  - rewrite bool_decide_eq_false_2; [reflexivity|].
    intros Hin. apply list_elem_of_singleton in Hin. contradiction.
Qed.

Lemma drop_while_at_repeat s :
  exists k, s = repeat at_sign k ++ drop_while is_at s.
Proof.
  induction s as [|c s IH]; simpl.
  - exists 0. reflexivity.
  - unfold is_at at 1. destruct (N.eqb_spec c at_sign) as [->|Hne].
    + destruct IH as (k & Hk). exists (S k). simpl. congruence.
    + exists 0. reflexivity.
Qed.

Lemma normalize_head u : head_is is_at (normalize u) = false.
Proof. unfold normalize. rewrite lstrip_chars_at. apply drop_while_head. Qed.

Lemma strip_normalize u :
  exists k, strip u = repeat at_sign k ++ normalize u.
Proof.
  unfold normalize. rewrite lstrip_chars_at. apply drop_while_at_repeat.
Qed.

Lemma last_is_suffix p s t : t <> [] -> last_is p (s ++ t) = last_is p t.
Proof.
  intros Ht. unfold last_is. rewrite rev_app_distr.
  apply head_is_app. intros Hr. apply Ht.
  rewrite <- (rev_involutive t), Hr. reflexivity.
Qed.

(** A normalised username that is not empty and does not start with
    whitespace is left alone by a second normalisation. *)
Lemma strip_normalize_fixed u :
  normalize u <> [] ->
  head_is isspace (normalize u) = false ->
  strip (normalize u) = normalize u.
Proof.
  intros Hne Hws.
  destruct (strip_normalize u) as (k & Hk).
  destruct (strip_spec u) as (_ & _ & _ & _ & _ & _ & Hlast).
  apply strip_id; [exact Hws|].
  rewrite Hk, last_is_suffix in Hlast by exact Hne. exact Hlast.
Qed.

Lemma normalize_fixed u :
  normalize u <> [] ->
  head_is isspace (normalize u) = false ->
  normalize (normalize u) = normalize u.
Proof.
  intros Hne Hws. unfold normalize at 1.
  rewrite strip_normalize_fixed, lstrip_chars_at by assumption.
  apply drop_while_id, normalize_head.
Qed.

Lemma truthy_true s : truthy s = true <-> s <> [].
Proof. destruct s; simpl; split; congruence. Qed.

End Strings.

(** ** [dict.fromkeys] *)

Section Fromkeys.

Implicit Types (l : list pystr) (x y : pystr).

Lemma dict_fromkeys_snoc l x :
  dict_fromkeys (l ++ [x]) =
  if decide (x ∈ dict_fromkeys l) then dict_fromkeys l
  else dict_fromkeys l ++ [x].
Proof. unfold dict_fromkeys. rewrite foldl_snoc. reflexivity. Qed.

Lemma elem_of_dict_fromkeys l x : x ∈ dict_fromkeys l <-> x ∈ l.
Proof.
  induction l as [|y l IH] using rev_ind.
  - reflexivity.
  - rewrite dict_fromkeys_snoc.
    destruct (decide (y ∈ dict_fromkeys l)) as [Hy|Hy].
    + rewrite IH, elem_of_app, list_elem_of_singleton.
      split; [tauto|]. intros [H| ->]; [exact H | apply IH, Hy].
    + rewrite !elem_of_app, IH. reflexivity.
Qed.

Lemma NoDup_dict_fromkeys l : NoDup (dict_fromkeys l).
Proof.
  induction l as [|y l IH] using rev_ind.
  - constructor.
  - rewrite dict_fromkeys_snoc.
    destruct (decide (y ∈ dict_fromkeys l)) as [Hy|Hy]; [exact IH|].
    apply NoDup_app. split; [exact IH|]. split.
    + intros z Hz Hz'. apply list_elem_of_singleton in Hz'. subst. tauto.
    + apply NoDup_singleton.
Qed.

Lemma dict_fromkeys_NoDup l : NoDup l -> dict_fromkeys l = l.
Proof.
  induction l as [|y l IH] using rev_ind; [reflexivity|].
  intros Hnd. apply NoDup_app in Hnd as (Hl & Hy & _).
  rewrite dict_fromkeys_snoc, IH by exact Hl.
  destruct (decide (y ∈ l)) as [Hin|Hin]; [|reflexivity].
  exfalso. apply (Hy y Hin), list_elem_of_here.
Qed.

Lemma dict_fromkeys_idemp l : dict_fromkeys (dict_fromkeys l) = dict_fromkeys l.
Proof. apply dict_fromkeys_NoDup, NoDup_dict_fromkeys. Qed.

(** First-seen order: the first key leads, and what follows is the result
    for the rest without the copies of that key. *)
Lemma dict_fromkeys_cons x l :
  dict_fromkeys (x :: l) = x :: filter (fun y => y <> x) (dict_fromkeys l).
Proof.
  induction l as [|y l IH] using rev_ind; [reflexivity|].
  rewrite app_comm_cons, !dict_fromkeys_snoc, IH.
  destruct (decide (y ∈ dict_fromkeys l)) as [Hy|Hy].
  - rewrite decide_True; [reflexivity|].
    destruct (decide (y = x)) as [->|Hne]; [apply list_elem_of_here|].
    apply list_elem_of_further, list_elem_of_filter. tauto.
  - rewrite filter_app.
    destruct (decide (y = x)) as [->|Hne].
    + rewrite decide_True by apply list_elem_of_here.
      rewrite filter_cons_False by tauto.
      rewrite filter_nil, app_nil_r. reflexivity.
    + rewrite decide_False.
      * rewrite filter_cons_True by exact Hne. reflexivity.
      * intros Hin. apply elem_of_cons in Hin as [Heq|Hin]; [tauto|].
        apply list_elem_of_filter in Hin. tauto.
Qed.

Lemma dict_fromkeys_nil_inv l : dict_fromkeys l = [] -> l = [].
Proof.
  destruct l as [|x l]; [reflexivity|].
  rewrite dict_fromkeys_cons. discriminate.
Qed.

End Fromkeys.

(** ** List loader *)

Section Loader.

Implicit Types (items : list json) (out us : list pystr) (u : pystr).

Lemma usernames_of_strings_normalized items :
  Forall normalized (usernames_of_strings items).
Proof.
  apply Forall_forall. intros u Hu.
  apply list_elem_of_In, in_flat_map in Hu as (x & _ & Hx).
  destruct x; try contradiction.
  destruct (truthy (strip s)); [|contradiction].
  destruct Hx as [<-|[]]. exists s. reflexivity.
Qed.

Lemma usernames_of_dicts_normalized items :
  Forall (fun u => normalized u /\ u <> []) (usernames_of_dicts items).
Proof.
  apply Forall_forall. intros u Hu.
  apply list_elem_of_filter in Hu as (Ht & Hu).
  split; [|apply truthy_true, Ht].
  apply list_elem_of_In, in_flat_map in Hu as (x & _ & Hx).
  destruct (username_field x) as [s|]; [|contradiction].
  destruct Hx as [<-|[]]. exists s. reflexivity.
Qed.

Lemma usernames_of_mixed_normalized items :
  Forall (fun u => normalized u /\ u <> []) (usernames_of_mixed items).
Proof.
  apply Forall_forall. intros u Hu.
  apply elem_of_dict_fromkeys, list_elem_of_filter in Hu as (Ht & Hu).
  split; [|apply truthy_true, Ht].
  apply list_elem_of_In, in_flat_map in Hu as (x & _ & Hx).
  destruct x; simpl in Hx;
    try contradiction;
    try (destruct Hx as [<-|[]]; eexists; reflexivity).
  destruct (dict_get (str "username") bindings) as [[]|];
    try contradiction.
  destruct Hx as [<-|[]]. eexists; reflexivity.
Qed.

Lemma parse_list_normalized data us :
  parse_list data = Loaded us -> Forall normalized us.
Proof.
  destruct data; try discriminate.
  destruct items as [|x items]; [discriminate|].
  unfold parse_list; cbv beta iota.
  generalize (x :: items). clear x items. intros items.
  destruct (forallb is_str items).
  - intros [= <-]. apply usernames_of_strings_normalized.
  - destruct (forallb is_dict items).
    + pose proof (usernames_of_dicts_normalized items) as H.
      destruct (usernames_of_dicts items); [discriminate|].
      intros [= <-]. eapply Forall_impl; [exact H|]. intros ? []; assumption.
    + pose proof (usernames_of_mixed_normalized items) as H.
      destruct (usernames_of_mixed items); [discriminate|].
      intros [= <-]. eapply Forall_impl; [exact H|]. intros ? []; assumption.
Qed.

Lemma load_usernames_inv data out :
  load_usernames data = Loaded out ->
  exists us, parse_list data = Loaded us /\ out = dict_fromkeys us.
Proof.
  unfold load_usernames. destruct (parse_list data) as [us|]; [|discriminate].
  intros [= <-]. exists us. split; reflexivity.
Qed.

(** The loader never returns a username twice. *)
Lemma load_usernames_NoDup data out :
  load_usernames data = Loaded out -> NoDup out.
Proof.
  intros (us & _ & ->)%load_usernames_inv. apply NoDup_dict_fromkeys.
Qed.

Lemma load_usernames_normalized data out :
  load_usernames data = Loaded out -> Forall normalized out.
Proof.
  intros (us & Hp%parse_list_normalized & ->)%load_usernames_inv.
  apply Forall_forall. intros u Hu.
  rewrite Forall_forall in Hp. apply Hp. apply elem_of_dict_fromkeys. exact Hu.
Qed.

(** For a list of strings the result is the kept items, normalised, in
    first-seen order. *)
Lemma load_usernames_strings items :
  items <> [] -> forallb is_str items = true ->
  load_usernames (JList items) =
  Loaded (dict_fromkeys (usernames_of_strings items)).
Proof.
  intros Hne Hstr. unfold load_usernames, parse_list.
  destruct items; [contradiction|]. rewrite Hstr. reflexivity.
Qed.

(** Outside the all-strings branch no empty username is returned. *)
Lemma load_usernames_no_empty items out :
  forallb is_str items = false ->
  load_usernames (JList items) = Loaded out -> [] ∉ out.
Proof.
  intros Hstr (us & Hp & ->)%load_usernames_inv Hin.
  apply (proj1 (elem_of_dict_fromkeys _ _)) in Hin.
  destruct items as [|x items]; [discriminate|].
  unfold parse_list in Hp; cbv beta iota in Hp.
  rewrite Hstr in Hp. revert Hp. clear Hstr.
  generalize (x :: items). clear x items. intros items Hp.
  destruct (forallb is_dict items).
  - pose proof (usernames_of_dicts_normalized items) as H.
    destruct (usernames_of_dicts items); [discriminate|].
    injection Hp as <-. rewrite Forall_forall in H.
    destruct (H _ Hin) as [_ Hne]. contradiction.
  - pose proof (usernames_of_mixed_normalized items) as H.
    destruct (usernames_of_mixed items); [discriminate|].
    injection Hp as <-. rewrite Forall_forall in H.
    destruct (H _ Hin) as [_ Hne]. contradiction.
Qed.

Example load_usernames_example :
  load_usernames (JList [JStr (str "@a"); JStr (str "b"); JStr (str "a")])
  = Loaded [str "a"; str "b"].
Proof. reflexivity. Qed.

Lemma forallb_is_str_fmap out : forallb is_str (JStr <$> out) = true.
Proof. induction out; simpl; [reflexivity | assumption]. Qed.

Lemma usernames_of_strings_fixed out :
  Forall (fun u => strip u <> [] /\ normalize u = u) out ->
  usernames_of_strings (JStr <$> out) = out.
Proof.
  induction 1 as [|u out [Hs Hn] _ IH]; [reflexivity|].
  cbn [fmap list_fmap usernames_of_strings flat_map].
  fold (usernames_of_strings (JStr <$> out)).
  apply truthy_true in Hs. rewrite Hs, Hn, IH. reflexivity.
Qed.

Lemma dicts_not_strings items :
  items <> [] -> forallb is_dict items = true -> forallb is_str items = false.
Proof.
  destruct items as [|x items]; [congruence|].
  intros _. simpl. destruct x; simpl; congruence.
Qed.

Lemma usernames_of_dicts_unusable items :
  Forall (fun x => usable_username x = false) items ->
  usernames_of_dicts items = [].
Proof.
  unfold usernames_of_dicts.
  induction 1 as [|x items Hx _ IH]; [reflexivity|].
  cbn [flat_map]. rewrite filter_app, IH, app_nil_r.
  unfold usable_username in Hx.
  destruct (username_field x) as [s|]; [|reflexivity].
  rewrite filter_cons_False; [reflexivity|]. congruence.
Qed.

End Loader.

(** ** Claims about the list loader *)

(** C1 (the code departs from the claim).  The loader is meant to return no
    empty username, but the all-strings branch tests [u.strip()] before the
    "@" is removed: for the input [["@"]] it returns the list holding the
    empty username.  The record branch and the mixed branch, which test the
    normalised username, drop the same item. *)
Theorem load_usernames_at_sign_only :
  load_usernames (JList [JStr (str "@")]) = Loaded [str ""]
  /\ load_usernames (JList [JDict [(str "username", JStr (str "@"))]])
     = Exit NoUsernamesError msg_no_username_objects
  /\ load_usernames (JList [JStr (str "@"); JNull])
     = Exit NoUsernamesError msg_no_usernames.
Proof. repeat split; reflexivity. Qed.

(** C7, as stated, fails: of the two leading "@" of ["@@a"] the claim keeps
    the second, the code removes both. *)
Lemma normalize_two_at_signs :
  normalize (str "@@a") = str "a"
  /\ spec_normalize (str "@@a") = str "@a"
  /\ normalize (str "@@a") <> spec_normalize (str "@@a").
Proof. repeat split; try reflexivity. discriminate. Qed.

(** C7 (amended).  Normalisation trims the surrounding whitespace and then
    strips every leading "@": the item is whitespace, a run of "@", the
    normal form and whitespace again; the trimmed core neither starts nor
    ends with whitespace; the normal form does not start with "@"; and it is
    what is left of the specification's reading once the remaining leading
    "@" are removed too. *)
Theorem normalize_strips_every_at (u : pystr) :
  exists (l r : pystr) (k : nat),
    u = l ++ repeat at_sign k ++ normalize u ++ r
    /\ Forall (fun c => isspace c = true) l
    /\ Forall (fun c => isspace c = true) r
    /\ head_is isspace (repeat at_sign k ++ normalize u) = false
    /\ last_is isspace (repeat at_sign k ++ normalize u) = false
    /\ head_is is_at (normalize u) = false
    /\ normalize u = drop_while is_at (spec_normalize u).
Proof.
  destruct (strip_spec u) as (l & r & Hu & Hl & Hr & Hhead & Hlast).
  destruct (strip_normalize u) as (k & Hk).
  exists l, r, k. rewrite (app_assoc (repeat at_sign k)), <- Hk.
  repeat split; try assumption.
  - apply normalize_head.
  - unfold normalize, spec_normalize. rewrite lstrip_chars_at.
    destruct (strip u) as [|c s']; [reflexivity|].
    simpl. unfold is_at at 1.
    destruct (N.eqb_spec c at_sign) as [->|Hne]; [reflexivity|].
    simpl. unfold is_at.
    destruct (N.eqb_spec c at_sign); [contradiction | reflexivity].
Qed.

(** C8, as stated, fails: ["@ a"] loads as [" a"], and loading [" a"] gives
    ["a"]. *)
Lemma load_usernames_not_idempotent :
  ~ (forall data out,
        load_usernames data = Loaded out ->
        load_usernames (JList (JStr <$> out)) = Loaded out).
Proof.
  intros H.
  specialize (H (JList [JStr (str "@ a")]) [str " a"] eq_refl).
  discriminate H.
Qed.

(** An output that is empty is refused when loaded again. *)
Example load_usernames_reload_empty :
  load_usernames (JList [JStr (str "  ")]) = Loaded []
  /\ load_usernames (JList (JStr <$> [])) = Exit EmptyListError msg_empty.
Proof. split; reflexivity. Qed.

(** C8 (amended).  Loading is idempotent on every output that is not empty
    and whose usernames are not empty and do not start with whitespace. *)
Theorem load_usernames_idempotent (data : json) (out : list pystr) :
  load_usernames data = Loaded out ->
  out <> [] ->
  forallb (fun u => truthy u && negb (head_is isspace u)) out = true ->
  load_usernames (JList (JStr <$> out)) = Loaded out.
Proof.
  intros Hload Hne Hok.
  pose proof (load_usernames_NoDup _ _ Hload) as Hnd.
  pose proof (load_usernames_normalized _ _ Hload) as Hnorm.
  rewrite load_usernames_strings.
  - rewrite usernames_of_strings_fixed.
    + rewrite dict_fromkeys_NoDup by exact Hnd. reflexivity.
    + apply Forall_forall. intros u Hu.
      rewrite Forall_forall in Hnorm. destruct (Hnorm u Hu) as (s & ->).
      rewrite forallb_forall in Hok.
      apply list_elem_of_In, Hok, andb_prop in Hu as [Ht Hws].
      apply truthy_true in Ht. apply negb_true_iff in Hws.
      rewrite strip_normalize_fixed, normalize_fixed by assumption.
      split; [exact Ht | reflexivity].
  - destruct out; [contradiction | discriminate].
  - apply forallb_is_str_fmap.
Qed.

(** The output of [["@a", "b", "a"]] loads as itself. *)
Lemma load_usernames_idempotent_witness :
  load_usernames (JList (JStr <$> [str "a"; str "b"]))
  = Loaded [str "a"; str "b"].
Proof.
  apply (load_usernames_idempotent
           (JList [JStr (str "@a"); JStr (str "b"); JStr (str "a")])).
  - reflexivity.
  - discriminate.
  - reflexivity.
Defined.

(** ** Reasoning about the controller monad *)

Section Preservation.

Context {W : Type} {D : Driver W}.
Context (R : st W -> st W -> Prop) `{!Frame R}.

Lemma Pres_ret {A : Type} (a : A) : Pres R (ret a).
Proof. intros s. reflexivity. Qed.

Lemma Pres_raise {A : Type} (e : exn) : Pres R (raise (A := A) e).
Proof. intros s. reflexivity. Qed.

Lemma Pres_out_of_fuel {A : Type} : Pres R (out_of_fuel (A := A)).
Proof. intros s. reflexivity. Qed.

Lemma Pres_get_followed_set : Pres R get_followed_set.
Proof. intros s. reflexivity. Qed.

Lemma bind_at {A B : Type} (c : M W A) (k : A -> M W B) (s : st W) :
  R s (c s).2 -> (forall a, Pres R (k a)) -> R s (bind c k s).2.
Proof.
  intros Hc Hk. unfold bind.
  destruct (c s) as [[a|e|] s1]; simpl in *; try exact Hc.
  etransitivity; [exact Hc | apply Hk].
Qed.

Lemma try_except_at {A : Type} (body : M W A) catches handler (s : st W) :
  R s (body s).2 -> (forall e, Pres R (handler e)) ->
  R s (try_except body catches handler s).2.
Proof.
  intros Hb Hh. unfold try_except.
  destruct (body s) as [[a|e|] s1]; simpl in *; try exact Hb.
  destruct (catches e); [|exact Hb].
  etransitivity; [exact Hb | apply Hh].
Qed.

Lemma Pres_bind {A B : Type} (c : M W A) (k : A -> M W B) :
  Pres R c -> (forall a, Pres R (k a)) -> Pres R (bind c k).
Proof. intros Hc Hk s. apply bind_at; [apply Hc | exact Hk]. Qed.

Lemma Pres_try_except {A : Type} (body : M W A) catches handler :
  Pres R body -> (forall e, Pres R (handler e)) ->
  Pres R (try_except body catches handler).
Proof. intros Hb Hh s. apply try_except_at; [apply Hb | exact Hh]. Qed.

Lemma Pres_try_or_return {A B : Type} (body : M W A) catches
    (handler : exn -> M W B) (k : A -> M W B) :
  Pres R body -> (forall e, Pres R (handler e)) -> (forall a, Pres R (k a)) ->
  Pres R (try_or_return body catches handler k).
Proof.
  intros Hb Hh Hk s. unfold try_or_return. specialize (Hb s).
  destruct (body s) as [[a|e|] s1]; simpl in *; try exact Hb.
  - etransitivity; [exact Hb | apply Hk].
  - destruct (catches e); [|exact Hb].
    etransitivity; [exact Hb | apply Hh].
Qed.

Lemma Pres_try_finally {A : Type} (body : M W A) (cleanup : M W unit) :
  Pres R body -> Pres R cleanup -> Pres R (try_finally body cleanup).
Proof.
  intros Hb Hc s. unfold try_finally. specialize (Hb s).
  destruct (body s) as [[a|e|] s1]; simpl in *; try exact Hb;
    specialize (Hc s1);
    destruct (cleanup s1) as [[[]|e'|] s2]; simpl in *;
    etransitivity; eassumption.
Qed.

Lemma Pres_call {A : Type} (op : W -> result A * W) : Pres R (call op).
Proof.
  intros s. unfold call.
  destruct (op (world s)) as [[a|e] w]; apply frame_world.
Qed.

Lemma Pres_print (msg : string) : Pres R (print msg).
Proof. intros s. apply frame_print. Qed.

Lemma Pres_py_mod (a b : Z) : Pres R (py_mod a b).
Proof. unfold py_mod. destruct (b =? 0)%Z; intros s; reflexivity. Qed.

Lemma Pres_for_each (l : list pystr) (body : pystr -> M W unit) :
  (forall x, Pres R (body x)) -> Pres R (for_each l body).
Proof.
  intros Hb. induction l as [|x l IH]; simpl.
  - apply Pres_ret.
  - apply Pres_bind; [apply Hb | intros _; exact IH].
Qed.

Lemma Pres_list_of (fs : gset pystr) : Pres R (list_of fs).
Proof. intros s. reflexivity. Qed.

Lemma Pres_emit (ev : event) :
  (forall s, R s (St (world s) (trace s ++ [ev]) (followed_set s))) ->
  Pres R (emit ev).
Proof. intros Hev s. apply Hev. Qed.

(** The two closes and the exit of the [async with] block respect a frame
    that does not look at these events. *)
Lemma Pres_context_close :
  (forall s, R s (St (world s) (trace s ++ [ContextClose]) (followed_set s))) ->
  Pres R context_close.
Proof.
  intros Hev. unfold context_close.
  apply Pres_bind; [apply Pres_call | intros _; apply Pres_emit, Hev].
Qed.

Lemma Pres_browser_close :
  (forall s, R s (St (world s) (trace s ++ [BrowserClose]) (followed_set s))) ->
  Pres R browser_close.
Proof.
  intros Hev. unfold browser_close.
  apply Pres_bind; [apply Pres_call | intros _; apply Pres_emit, Hev].
Qed.

End Preservation.

(** One step of a preservation proof for straight-line monadic code. *)
Ltac pres_step :=
  first
    [ assumption
    | apply Pres_ret; tc_solve
    | apply Pres_raise; tc_solve
    | apply Pres_call; tc_solve
    | apply Pres_print; tc_solve
    | apply Pres_py_mod; tc_solve
    | apply Pres_get_followed_set; tc_solve
    | apply Pres_list_of; tc_solve
    | apply Pres_out_of_fuel; tc_solve
    | apply Pres_bind; [tc_solve| |intros ?]
    | apply Pres_try_except; [tc_solve| |intros ?]
    | apply Pres_try_or_return; [tc_solve| |intros ?|intros ?]
    | match goal with
      | |- Pres _ (if ?b then _ else _) => destruct b
      | |- Pres _ (match ?x with _ => _ end) => destruct x
      end ].

Ltac pres := repeat pres_step.

Section Primitives.

Context {W : Type} {D : Driver W}.
Context (R : st W -> st W -> Prop) `{!Frame R}.

Lemma Pres_follow_scan indices : Pres R (follow_scan indices).
Proof. induction indices as [|i rest IH]; simpl; pres. Qed.

Lemma Pres_follow_profile uname : Pres R (follow_profile uname).
Proof.
  unfold follow_profile. pres. apply Pres_follow_scan.
Qed.

Lemma Pres_is_user_following_me uname : Pres R (is_user_following_me uname).
Proof. unfold is_user_following_me. pres. Qed.

Lemma Pres_unfollow_scan indices : Pres R (unfollow_scan indices).
Proof. induction indices as [|i rest IH]; simpl; pres. Qed.

Lemma Pres_unfollow_profile uname : Pres R (unfollow_profile uname).
Proof.
  unfold unfollow_profile. pres. apply Pres_unfollow_scan.
Qed.

End Primitives.

(** ** The three state relations are frames *)

Lemma log_of_app (t t' : list event) : log_of (t ++ t') = log_of t ++ log_of t'.
Proof. apply flat_map_app. Qed.

#[global] Instance same_set_frame {W : Type} : Frame (same_set (W := W)).
Proof.
  split.
  - split.
    + intros s. reflexivity.
    + intros s1 s2 s3 H12 H23. unfold same_set in *. congruence.
  - intros s w. reflexivity.
  - intros s msg. reflexivity.
Qed.

#[global] Instance quiet_frame {W : Type} : Frame (quiet (W := W)).
Proof.
  split.
  - split.
    + intros s. split; reflexivity.
    + intros s1 s2 s3 [Hs12 Hl12] [Hs23 Hl23]. split; congruence.
  - intros s w. split; reflexivity.
  - intros s msg. split; [reflexivity|]. simpl.
    rewrite log_of_app. apply app_nil_r.
Qed.

#[global] Instance drops_frame {W : Type} (uname : pystr) :
  Frame (drops (W := W) uname).
Proof.
  split.
  - split.
    + intros s. unfold drops. intros x [Hx _]%elem_of_difference. exact Hx.
    + intros s1 s2 s3 H12 H23 x Hx. apply H23.
      apply elem_of_difference in Hx as Hx'. destruct Hx' as [_ Hne].
      apply elem_of_difference. split; [apply H12, Hx | exact Hne].
  - intros s w x [Hx _]%elem_of_difference. exact Hx.
  - intros s msg x [Hx _]%elem_of_difference. exact Hx.
Qed.

Lemma monitored_emit {W : Type} (s : st W) (ev : event) :
  monitored s (St (world s) (trace s ++ [ev]) (followed_set s)).
Proof.
  exists [ev]. split; [reflexivity|]. split; [reflexivity|].
  simpl. intros u Hin Hout. contradiction.
Qed.

#[global] Instance monitored_frame {W : Type} : Frame (monitored (W := W)).
Proof.
  split.
  - split.
    + intros s. exists []. rewrite app_nil_r.
      split; [reflexivity|]. split; [reflexivity|].
      intros u Hin Hout. contradiction.
    + intros s1 s2 s3 (t1 & Ht1 & Hsub1 & Hev1) (t2 & Ht2 & Hsub2 & Hev2).
      exists (t1 ++ t2). split; [rewrite Ht2, Ht1, app_assoc; reflexivity|].
      split; [etransitivity; eassumption|].
      intros u Hin Hout. apply elem_of_app.
      destruct (decide (u ∈ followed_set s2)) as [Hmid|Hmid].
      * right. apply Hev2; assumption.
      * left. apply Hev1; assumption.
  - intros s w. exists []. simpl. rewrite app_nil_r.
    split; [reflexivity|]. split; [reflexivity|].
    intros u Hin Hout. contradiction.
  - intros s msg. apply monitored_emit.
Qed.

Section Monitoring.

Context {W : Type} {D : Driver W}.

(** [list(fs)] lists the members of [fs], all of them. *)
Lemma elem_of_list_set (w : W) (fs : gset pystr) (u : pystr) :
  u ∈ list_set w fs <-> u ∈ fs.
Proof. rewrite (list_set_perm w fs). apply elem_of_elements. Qed.

Lemma list_to_set_list_set (w : W) (fs : gset pystr) :
  list_to_set (list_set w fs) = fs.
Proof.
  rewrite (list_to_set_perm_L _ _ (list_set_perm w fs)).
  apply list_to_set_elements_L.
Qed.

Lemma Pres_log_action (R : st W -> st W -> Prop) `{!Frame R} :
  (forall s ev, R s (St (world s) (trace s ++ [ev]) (followed_set s))) ->
  forall entry, Pres R (log_action entry).
Proof.
  intros Hemit entry. unfold log_action.
  apply Pres_bind; [tc_solve | apply Pres_call; tc_solve | intros _].
  intros s. apply Hemit.
Qed.

Lemma log_action_monitored entry : Pres monitored (log_action entry).
Proof. apply Pres_log_action; [tc_solve | apply monitored_emit]. Qed.

(** Logging the successful unfollow and then dropping the username. *)
Lemma log_discard_monitored uname :
  Pres monitored
    (log_action (unfollow_on_followback uname true);; discard uname).
Proof.
  intros s. unfold log_action, bind, call, emit, discard.
  destruct (log_append _ (world s)) as [[[]|e] w]; simpl.
  - exists [Logged (unfollow_on_followback uname true)].
    split; [reflexivity|]. simpl. split.
    + intros x [Hx _]%elem_of_difference. exact Hx.
    + intros u Hin Hout. destruct (decide (u = uname)) as [->|Hne].
      * apply list_elem_of_here.
      * exfalso. apply Hout, elem_of_difference. split; [exact Hin|].
        intros Hu%elem_of_singleton. contradiction.
  - exists []. simpl. rewrite app_nil_r.
    split; [reflexivity|]. split; [reflexivity|].
    intros u Hin Hout. contradiction.
Qed.

Lemma check_user_monitored uname : Pres monitored (check_user uname).
Proof.
  unfold check_user.
  apply Pres_bind; [tc_solve | | intros _; apply Pres_call; tc_solve].
  apply Pres_try_except; [tc_solve | | intros e].
  - apply Pres_bind;
      [tc_solve | apply Pres_is_user_following_me; tc_solve | intros follows_me].
    destruct follows_me; [|apply log_action_monitored].
    apply Pres_bind;
      [tc_solve | apply Pres_unfollow_profile; tc_solve | intros unfollowed].
    destruct unfollowed; [apply log_discard_monitored|].
    apply Pres_bind; [tc_solve | apply log_action_monitored | intros _].
    apply Pres_ret; tc_solve.
  - apply Pres_bind; [tc_solve | apply Pres_print; tc_solve | intros _].
    apply log_action_monitored.
Qed.

Lemma monitor_pass_monitored interval fs :
  Pres monitored (monitor_pass interval fs).
Proof.
  unfold monitor_pass. pres.
  apply Pres_for_each; [tc_solve | apply check_user_monitored].
Qed.

Lemma monitor_loop_monitored interval fuel :
  Pres monitored (monitor_loop interval fuel).
Proof.
  induction fuel as [|fuel IH]; cbn [monitor_loop].
  - apply Pres_out_of_fuel; tc_solve.
  - apply Pres_bind;
      [tc_solve | apply Pres_get_followed_set; tc_solve | intros fs].
    destruct (decide (fs = ∅)); [apply Pres_print; tc_solve|].
    apply Pres_bind;
      [tc_solve | apply monitor_pass_monitored | intros _; exact IH].
Qed.

(** The state after [j] passes is reached from the state after [i <= j]
    passes by monitoring. *)
Lemma monitor_loop_mono interval (i j : nat) (s : st W) :
  i <= j ->
  monitored (monitor_loop interval i s).2 (monitor_loop interval j s).2.
Proof.
  revert j s. induction i as [|i IH]; intros j s Hij.
  - apply monitor_loop_monitored.
  - destruct j as [|j]; [lia|].
    cbn [monitor_loop]. unfold bind at 1 3, get_followed_set.
    destruct (decide (followed_set s = ∅)); [reflexivity|].
    unfold bind.
    destruct (monitor_pass interval (followed_set s) s) as [[[]|e|] s1].
    + apply IH. lia.
    + reflexivity.
    + reflexivity.
Qed.

Lemma log_action_same_set entry : Pres same_set (log_action entry).
Proof. apply Pres_log_action; [tc_solve | reflexivity]. Qed.

Lemma check_user_drops uname : Pres (drops uname) (check_user uname).
Proof.
  assert (Hlog : forall entry, Pres (drops uname) (log_action entry)).
  { apply Pres_log_action; [tc_solve|].
    intros s ev x [Hx _]%elem_of_difference. exact Hx. }
  unfold check_user.
  apply Pres_bind; [tc_solve | | intros _; apply Pres_call; tc_solve].
  apply Pres_try_except; [tc_solve | | intros e].
  - apply Pres_bind;
      [tc_solve | apply Pres_is_user_following_me; tc_solve | intros follows_me].
    destruct follows_me; [|apply Hlog].
    apply Pres_bind;
      [tc_solve | apply Pres_unfollow_profile; tc_solve | intros unfollowed].
    apply Pres_bind; [tc_solve | apply Hlog | intros _].
    destruct unfollowed; [|apply Pres_ret; tc_solve].
    intros s x Hx. exact Hx.
  - apply Pres_bind; [tc_solve | apply Pres_print; tc_solve | intros _].
    apply Hlog.
Qed.

(** What follows the body of the [try] in [check_user] leaves the working
    set alone. *)
Lemma check_user_finish (body : M W unit) uname (s : st W) :
  followed_set (body s).2 = followed_set s ->
  followed_set
    ((try_except body is_Exception
        (fun e =>
           print "[WARN] Error checking/unfollowing {uname}: {e}";;
           log_action (error uname e));;
      call (asyncio_sleep 0 8 18)) s).2
  = followed_set s.
Proof.
  intros Hbody.
  apply (bind_at same_set); [|intros _; apply Pres_call; tc_solve].
  apply (try_except_at same_set); [exact Hbody|].
  intros e. apply Pres_bind; [tc_solve | apply Pres_print; tc_solve|].
  intros _. apply log_action_same_set.
Qed.

(** A username leaves the working set during [check_user] only if it is
    the one being checked, the follow-back check returned true and the
    unfollow that follows returned true. *)
Lemma check_user_removes uname (s : st W) (u : pystr) :
  u ∈ followed_set s ->
  u ∉ followed_set (check_user uname s).2 ->
  u = uname
  /\ exists s1 s2,
      is_user_following_me uname s = (Ok true, s1)
      /\ unfollow_profile uname s1 = (Ok true, s2).
Proof.
  intros Hin Hout. split.
  - destruct (decide (u = uname)) as [Heq|Hne]; [exact Heq|].
    exfalso. apply Hout, (check_user_drops uname s), elem_of_difference.
    split; [exact Hin|]. intros Hu%elem_of_singleton. contradiction.
  - pose proof (Pres_is_user_following_me same_set uname s) as H1.
    destruct (is_user_following_me uname s) as [r1 s1] eqn:E1.
    pose proof (Pres_unfollow_profile same_set uname s1) as H2.
    destruct (unfollow_profile uname s1) as [r2 s2] eqn:E2.
    unfold same_set in H1, H2. simpl in H1, H2.
    assert (Hlog : forall entry (s0 : st W),
               followed_set (log_action entry s0).2 = followed_set s0)
      by (intros entry s0; apply log_action_same_set).
    destruct r1 as [[|]|e1|]; [destruct r2 as [[|]|e2|]|..];
      try solve [exists s1, s2; split; [reflexivity | exact E2]];
      exfalso; apply Hout; unfold check_user;
      rewrite check_user_finish; try exact Hin;
      unfold bind; rewrite E1; cbv beta iota; try rewrite E2;
      cbv beta iota; simpl; try congruence.
    specialize (Hlog (unfollow_on_followback uname false) s2).
    destruct (log_action _ s2) as [[[]|e|] s3]; simpl in *; congruence.
Qed.

End Monitoring.

(** ** MONITORING_PHASE *)

(** C2.  During monitoring a username leaves the working set only in the
    step that checks it, when the follow-back check returned true and the
    unfollow after it returned true; from one pass to any later one the
    working set can only lose members (so its size never grows and a
    username that is gone stays gone); and every username lost by the loop
    has its [unfollow_on_followback] entry with [unfollowed = true] among
    the events the loop appended. *)
Theorem monitoring_working_set {W : Type} {D : Driver W} (interval : Z)
    (s : st W) :
  (forall uname u,
      u ∈ followed_set s ->
      u ∉ followed_set (check_user uname s).2 ->
      u = uname
      /\ exists s1 s2,
          is_user_following_me uname s = (Ok true, s1)
          /\ unfollow_profile uname s1 = (Ok true, s2))
  /\ (forall i j,
         i <= j ->
         followed_set (monitor_loop interval j s).2
           ⊆ followed_set (monitor_loop interval i s).2
         /\ size (followed_set (monitor_loop interval j s).2)
            <= size (followed_set (monitor_loop interval i s).2)
         /\ forall u,
             u ∉ followed_set (monitor_loop interval i s).2 ->
             u ∉ followed_set (monitor_loop interval j s).2)
  /\ (forall fuel u,
         u ∈ followed_set s ->
         u ∉ followed_set (monitor_loop interval fuel s).2 ->
         exists t,
           trace (monitor_loop interval fuel s).2 = trace s ++ t
           /\ Logged (unfollow_on_followback u true) ∈ t).
Proof.
  split; [|split].
  - intros uname u. apply check_user_removes.
  - intros i j Hij.
    destruct (monitor_loop_mono interval i j s Hij) as (t & _ & Hsub & _).
    split; [exact Hsub|]. split.
    + apply subseteq_size, Hsub.
    + intros u Hu Hin. apply Hu, Hsub, Hin.
  - intros fuel u Hin Hout.
    destruct (monitor_loop_monitored interval fuel s) as (t & Ht & _ & Hev).
    exists t. split; [exact Ht | apply Hev; assumption].
Qed.

(** On the friendly page ["a"] is dropped by its check, and both calls
    returned true. *)
Lemma monitoring_working_set_witness :
  str "a" = str "a"
  /\ exists s1 s2,
      is_user_following_me (D := sim_driver friendly) (str "a") watching_a
      = (Ok true, s1)
      /\ unfollow_profile (D := sim_driver friendly) (str "a") s1
         = (Ok true, s2).
Proof.
  apply (proj1 (monitoring_working_set (D := sim_driver friendly)
                  DEFAULT_INTERVAL watching_a)).
  - apply elem_of_singleton. reflexivity.
  - apply (bool_decide_unpack _). vm_compute. exact I.
Defined.

(** ** FOLLOWING_PHASE *)

Lemma log_of_snoc_logged (t : list event) (entry : log_entry) :
  log_of (t ++ [Logged entry]) = log_of t ++ [entry].
Proof. rewrite log_of_app. reflexivity. Qed.

Lemma log_of_snoc_print (t : list event) (msg : string) :
  log_of (t ++ [Print msg]) = log_of t.
Proof. rewrite log_of_app. apply app_nil_r. Qed.

Lemma attempts_length total idx (us : list pystr) (bs : list bool) :
  List.length bs = List.length us ->
  List.length (attempts total idx us bs) = List.length us.
Proof.
  revert idx bs. induction us as [|u us IH]; intros idx [|b bs] Hlen;
    simpl in *; try reflexivity; try discriminate.
  f_equal. apply IH. lia.
Qed.

Lemma attempts_usernames total idx (us : list pystr) (bs : list bool) :
  List.length bs = List.length us ->
  entry_username <$> attempts total idx us bs = us.
Proof.
  revert idx bs. induction us as [|u us IH]; intros idx [|b bs] Hlen;
    simpl in *; try reflexivity; try discriminate.
  f_equal. apply IH. lia.
Qed.

Lemma attempts_follow_attempt total idx (us : list pystr) (bs : list bool) :
  forallb is_follow_attempt (attempts total idx us bs) = true.
Proof.
  revert idx bs. induction us as [|u us IH]; intros idx [|b bs];
    simpl; try reflexivity. apply IH.
Qed.

Section FollowPass.

Context {W : Type} {D : Driver W}.

Lemma log_action_ok entry (s : st W) :
  log_returns ->
  exists w,
    log_action entry s
    = (Ok tt, St w (trace s ++ [Logged entry]) (followed_set s)).
Proof.
  intros Hlog. destruct (Hlog entry (world s)) as (w & Hw).
  exists w. unfold log_action, bind, call, emit. rewrite Hw. reflexivity.
Qed.

Lemma sleep_ok base lo hi (s : st W) :
  sleep_returns ->
  exists w,
    call (asyncio_sleep base lo hi) s
    = (Ok tt, St w (trace s) (followed_set s)).
Proof.
  intros Hsleep. destruct (Hsleep base lo hi (world s)) as (w & Hw).
  exists w. unfold call. rewrite Hw. reflexivity.
Qed.

Lemma py_mod_ok (a b : Z) (s : st W) :
  b <> 0%Z -> py_mod a b s = (Ok (a mod b)%Z, s).
Proof.
  intros Hb. unfold py_mod.
  destruct (Z.eqb_spec b 0); [contradiction | reflexivity].
Qed.

Lemma py_mod_zero (a : Z) (s : st W) :
  py_mod a 0 s = (Raise ZeroDivisionError, s).
Proof. reflexivity. Qed.

Lemma follow_profile_log uname (s s1 : st W) r :
  follow_profile uname s = (r, s1) -> log_of (trace s1) = log_of (trace s).
Proof.
  intros E. pose proof (Pres_follow_profile quiet uname s) as [_ Hq].
  rewrite E in Hq. exact Hq.
Qed.

(** With a batch size other than zero and collaborators that return, the
    follow pass runs to its end and logs one [follow_attempt] per
    username, in order. *)
Lemma follow_pass_completes total batch_size (usernames : list pystr) :
  batch_size <> 0%Z -> follow_returns -> log_returns -> sleep_returns ->
  forall idx (s : st W),
  exists s' performed,
    follow_pass total batch_size idx usernames s = (Ok tt, s')
    /\ List.length performed = List.length usernames
    /\ log_of (trace s')
       = log_of (trace s) ++ attempts total idx usernames performed.
Proof.
  intros Hb Hfollow Hlog Hsleep.
  induction usernames as [|uname rest IH]; intros idx s.
  - exists s, []. simpl. rewrite app_nil_r. repeat split; reflexivity.
  - destruct (Hfollow uname s) as (b & s1 & E1).
    pose proof (follow_profile_log _ _ _ _ E1) as Hl1.
    destruct (log_action_ok (follow_attempt uname b idx total) s1 Hlog)
      as (w2 & E2).
    set (s2 := St w2 _ _) in E2.
    destruct (sleep_ok 0 MIN_DELAY_BETWEEN_ACTIONS MAX_DELAY_BETWEEN_ACTIONS
                s2 Hsleep) as (w3 & E3).
    set (s3 := St w3 _ _) in E3.
    pose proof (py_mod_ok (Z.of_nat idx) batch_size s3 Hb) as E4.
    assert (exists s4,
               (if ((Z.of_nat idx mod batch_size) =? 0)%Z
                then
                  print "[INFO] Completed {idx} follows; pausing {BATCH_PAUSE}s before next batch...";;
                  call (asyncio_sleep BATCH_PAUSE 1 10)
                else ret tt) s3 = (Ok tt, s4)
               /\ log_of (trace s4) = log_of (trace s3)) as (s4 & E5 & Hl5).
    { destruct ((Z.of_nat idx mod batch_size) =? 0)%Z.
      - unfold bind, print, emit.
        destruct (sleep_ok BATCH_PAUSE 1 10
                    (St (world s3) (trace s3 ++ [Print "[INFO] Completed {idx} follows; pausing {BATCH_PAUSE}s before next batch..."])
                        (followed_set s3)) Hsleep) as (w4 & E).
        rewrite E. eexists. split; [reflexivity|].
        simpl. apply log_of_snoc_print.
      - exists s3. split; reflexivity. }
    destruct (IH (S idx) s4) as (s' & performed & E6 & Hlen & Hl6).
    exists s', (b :: performed).
    split; [|split].
    + cbn [follow_pass]. unfold bind in E5 |- *.
      rewrite E1; cbv beta iota. rewrite E2; cbv beta iota.
      rewrite E3; cbv beta iota. rewrite E4; cbv beta iota.
      rewrite E5; cbv beta iota. exact E6.
    + simpl. congruence.
    + rewrite Hl6, Hl5. subst s3 s2. simpl.
      rewrite log_of_snoc_logged, Hl1, <- app_assoc. reflexivity.
Qed.

End FollowPass.

(** C3, as stated, fails: with [--batch 0] the pass over a Target List of
    two usernames stops at the first one, with a single [follow_attempt]
    entry in the log. *)
Lemma follow_pass_batch_zero_stops :
  load_usernames (JList [JStr (str "a"); JStr (str "b")])
  = Loaded [str "a"; str "b"]
  /\ (follow_then_unfollow_loop (D := sim_driver friendly)
        (Content (JList [JStr (str "a"); JStr (str "b")]))
        DEFAULT_INTERVAL 0 1 start).1
     = Raise ZeroDivisionError
  /\ log_of (trace (follow_then_unfollow_loop (D := sim_driver friendly)
                      (Content (JList [JStr (str "a"); JStr (str "b")]))
                      DEFAULT_INTERVAL 0 1 start).2)
     = [follow_attempt (str "a") true 1 2].
Proof. repeat split; reflexivity. Qed.

(** C3 (amended).  When the batch size is not zero and every call of
    [follow_profile], of the log writer and of [asyncio.sleep] returns,
    FOLLOWING_PHASE runs over the whole Target List whatever boolean each
    follow returns: it appends exactly one [follow_attempt] entry per
    username, in list order, numbered from the starting position. *)
Theorem follow_pass_logs_every_username {W : Type} {D : Driver W}
    (total : nat) (batch_size : Z) (idx : nat) (usernames : list pystr)
    (s : st W) :
  batch_size <> 0%Z -> follow_returns -> log_returns -> sleep_returns ->
  exists s' performed new,
    follow_pass total batch_size idx usernames s = (Ok tt, s')
    /\ log_of (trace s') = log_of (trace s) ++ new
    /\ new = attempts total idx usernames performed
    /\ List.length new = List.length usernames
    /\ forallb is_follow_attempt new = true
    /\ entry_username <$> new = usernames.
Proof.
  intros Hb Hfollow Hlog Hsleep.
  destruct (follow_pass_completes total batch_size usernames
              Hb Hfollow Hlog Hsleep idx s)
    as (s' & performed & Hrun & Hlen & Hl).
  exists s', performed, (attempts total idx usernames performed).
  repeat split; try assumption.
  - apply attempts_length, Hlen.
  - apply attempts_follow_attempt.
  - apply attempts_usernames, Hlen.
Qed.

(** Two usernames on the friendly page, default batch size. *)
Lemma follow_pass_logs_every_username_witness :
  exists s' performed new,
    follow_pass (D := sim_driver friendly) 2 DEFAULT_BATCH_SIZE 1
      [str "a"; str "b"] start = (Ok tt, s')
    /\ log_of (trace s') = log_of (trace start) ++ new
    /\ new = attempts 2 1 [str "a"; str "b"] performed
    /\ List.length new = List.length [str "a"; str "b"]
    /\ forallb is_follow_attempt new = true
    /\ entry_username <$> new = [str "a"; str "b"].
Proof.
  apply (follow_pass_logs_every_username (D := sim_driver friendly)).
  - discriminate.
  - intros u s. eexists _, _. reflexivity.
  - intros entry w. eexists. reflexivity.
  - intros base lo hi w. eexists. reflexivity.
Defined.

(** C9, as stated, fails on both sides.  With batch size 0 and an empty
    Target List there is no attempt and no error: the phase returns.  With
    the default batch size, on a page whose header wait raises a Playwright
    error that is not a timeout, the phase does not run to completion: it
    ends with that error at the first username, nothing logged. *)
Lemma follow_pass_batch_claim_fails :
  follow_pass (D := sim_driver friendly) 0 0 1 [] start = (Ok tt, start)
  /\ (follow_pass (D := sim_driver header_crash) 2 DEFAULT_BATCH_SIZE 1
        [str "a"; str "b"] start).1
     = Raise PlaywrightError
  /\ log_of (trace (follow_pass (D := sim_driver header_crash) 2
                      DEFAULT_BATCH_SIZE 1 [str "a"; str "b"] start).2)
     = [].
Proof. repeat split; reflexivity. Qed.

(** C9 (amended).  With batch size 0 and a Target List that is not empty,
    once the follow, the log entry and the delay of the first attempt have
    returned, FOLLOWING_PHASE ends in [ZeroDivisionError], raised by
    [idx % batch_size], with exactly the [follow_attempt] entry of the
    first username added to the log.  With any other batch size, so with
    every batch size of at least 1, the remainder is defined at every
    position and, every call of follow, of the log writer and of the delay
    returning, the phase returns having added exactly one [follow_attempt]
    entry per username of the list, in list order. *)
Theorem follow_pass_batch_size {W : Type} {D : Driver W}
    (total : nat) (batch_size : Z) (idx : nat) (uname : pystr)
    (rest usernames : list pystr) (s : st W) :
  (batch_size = 0%Z ->
   forall b s1 w2 w3,
     follow_profile uname s = (Ok b, s1) ->
     log_append (follow_attempt uname b idx total) (world s1)
     = (Returns tt, w2) ->
     asyncio_sleep 0 MIN_DELAY_BETWEEN_ACTIONS MAX_DELAY_BETWEEN_ACTIONS w2
     = (Returns tt, w3) ->
     follow_pass total batch_size idx (uname :: rest) s
     = (Raise ZeroDivisionError,
        St w3 (trace s1 ++ [Logged (follow_attempt uname b idx total)])
           (followed_set s1))
     /\ log_of (trace s1 ++ [Logged (follow_attempt uname b idx total)])
        = log_of (trace s) ++ [follow_attempt uname b idx total])
  /\ (batch_size <> 0%Z ->
      (forall (i : nat) (s0 : st W),
          py_mod (Z.of_nat i) batch_size s0
          = (Ok (Z.of_nat i mod batch_size)%Z, s0))
      /\ (follow_returns -> log_returns -> sleep_returns ->
          exists s' performed,
            follow_pass total batch_size idx usernames s = (Ok tt, s')
            /\ List.length performed = List.length usernames
            /\ log_of (trace s')
               = log_of (trace s) ++ attempts total idx usernames performed
            /\ entry_username <$> attempts total idx usernames performed
               = usernames)).
Proof.
  split.
  - intros -> b s1 w2 w3 E1 E2 E3. split.
    + cbn [follow_pass]. unfold bind, log_action, call, emit, bind.
      rewrite E1; cbv beta iota. rewrite E2; cbv beta iota.
      cbn [world trace followed_set]. rewrite E3. reflexivity.
    + rewrite log_of_snoc_logged, (follow_profile_log _ _ _ _ E1).
      reflexivity.
  - intros Hb. split.
    + intros i s0. apply py_mod_ok, Hb.
    + intros Hfollow Hlog Hsleep.
      destruct (follow_pass_completes total batch_size usernames
                  Hb Hfollow Hlog Hsleep idx s)
        as (s' & performed & Hrun & Hlen & Hl).
      exists s', performed. repeat split; try assumption.
      apply attempts_usernames, Hlen.
Qed.

(** One username on the friendly page with batch size 0, two with batch
    size 1. *)
Lemma follow_pass_batch_size_witness :
  (follow_pass (D := sim_driver friendly) 1 0 1 [str "a"] start
   = (Raise ZeroDivisionError,
      St tt ([Print "[ACTION] Followed {uname}"]
             ++ [Logged (follow_attempt (str "a") true 1 1)]) ∅)
   /\ log_of ([Print "[ACTION] Followed {uname}"]
              ++ [Logged (follow_attempt (str "a") true 1 1)])
      = log_of (trace start) ++ [follow_attempt (str "a") true 1 1])
  /\ exists s' performed,
      follow_pass (D := sim_driver friendly) 2 1 1 [str "a"; str "b"] start
      = (Ok tt, s')
      /\ List.length performed = List.length [str "a"; str "b"]
      /\ log_of (trace s')
         = log_of (trace start)
           ++ attempts 2 1 [str "a"; str "b"] performed
      /\ entry_username <$> attempts 2 1 [str "a"; str "b"] performed
         = [str "a"; str "b"].
Proof.
  split.
  - apply (proj1 (follow_pass_batch_size (D := sim_driver friendly)
                    1 0 1 (str "a") [] [] start) eq_refl
                 true (St tt [Print "[ACTION] Followed {uname}"] ∅) tt tt);
      reflexivity.
  - apply (proj2 (follow_pass_batch_size (D := sim_driver friendly)
                    2 1 1 (str "a") [] [str "a"; str "b"] start)).
    + discriminate.
    + intros u s. eexists _, _. reflexivity.
    + intros entry w. eexists. reflexivity.
    + intros base lo hi w. eexists. reflexivity.
Defined.

(** ** Action primitives *)

Section PrimitiveFailures.

Context {W : Type} {D : Driver W}.



End PrimitiveFailures.

(** C4 (the code departs from the claim).  The wait for the profile header
    is guarded by [except PlaywrightTimeoutError] only, where the steps
    before and after it catch [Exception]: a Playwright error other than a
    timeout raised by that wait leaves each of the three primitives as an
    exception instead of [False]. *)
Theorem primitives_propagate_header_error (uname : pystr) (s : st unit) :
  (follow_profile (D := sim_driver header_crash) uname s).1
  = Raise PlaywrightError
  /\ (is_user_following_me (D := sim_driver header_crash) uname s).1
     = Raise PlaywrightError
  /\ (unfollow_profile (D := sim_driver header_crash) uname s).1
     = Raise PlaywrightError.
Proof. repeat split; reflexivity. Qed.

(** ** List-loading errors *)

Lemma load_usernames_exit data err msg :
  load_usernames data = Exit err msg <-> parse_list data = Exit err msg.
Proof.
  unfold load_usernames. destruct (parse_list data); split; congruence.
Qed.

Lemma quiet_emit {W : Type} (s : st W) (ev : event) :
  (forall entry, ev <> Logged entry) ->
  quiet s (St (world s) (trace s ++ [ev]) (followed_set s)).
Proof.
  intros Hev. split; [reflexivity|]. cbn [trace]. rewrite log_of_app.
  destruct ev; cbn; try apply app_nil_r.
  exfalso. eapply Hev. reflexivity.
Qed.

Lemma close_and_return_quiet {W : Type} {D : Driver W} (msg : string) :
  Pres quiet (close_and_return msg).
Proof.
  unfold close_and_return.
  apply Pres_bind; [tc_solve | apply Pres_print; tc_solve | intros _].
  apply Pres_bind; [tc_solve | | intros _].
  { apply Pres_context_close; [tc_solve|].
    intros s. apply quiet_emit. discriminate. }
  apply Pres_bind; [tc_solve | | intros _; apply Pres_ret; tc_solve].
  apply Pres_browser_close; [tc_solve|].
  intros s. apply quiet_emit. discriminate.
Qed.

(** An early return whose two closes return. *)
Lemma close_and_return_ok {W : Type} {D : Driver W} (msg : string)
    (s : st W) (w1 w2 : W) :
  close_context (world s) = (Returns tt, w1) ->
  close_browser w1 = (Returns tt, w2) ->
  close_and_return msg s
  = (Ok tt,
     St w2 (trace s ++ [Print msg; ContextClose; BrowserClose])
        (followed_set s)).
Proof.
  intros H1 H2.
  unfold close_and_return, context_close, browser_close, bind, print, call,
    emit, ret.
  cbn [world trace followed_set]. rewrite H1.
  cbn [world trace followed_set]. rewrite H2.
  cbn [world trace followed_set]. rewrite <- !app_assoc. reflexivity.
Qed.

(** C5.  Parsed input that is not a list ends in [FormatError], the empty
    list in [EmptyListError], a list of records none of which has a usable
    [username] in [NoUsernamesError]; and on any of them the controller
    follows nobody and logs nothing, whatever the page, the context and
    the browser do: it prints the message, closes the context and the
    browser and, these two calls returning, returns normally out of the
    [async with] block, having called nothing else. *)
Theorem list_loading_errors {W : Type} {D : Driver W} (data : json)
    (interval batch_size : Z) (fuel : nat) (s : st W) :
  (is_list data = false ->
   load_usernames data = Exit FormatError msg_not_array)
  /\ (data = JList [] -> load_usernames data = Exit EmptyListError msg_empty)
  /\ (forall items,
         data = JList items -> items <> [] ->
         forallb is_dict items = true ->
         forallb (fun x => negb (usable_username x)) items = true ->
         load_usernames data = Exit NoUsernamesError msg_no_username_objects)
  /\ (forall err msg,
         load_usernames data = Exit err msg ->
         (log_of (trace (follow_then_unfollow_loop (Content data) interval
                           batch_size fuel s).2)
          = log_of (trace s)
          /\ followed_set (follow_then_unfollow_loop (Content data) interval
                             batch_size fuel s).2
             = followed_set s)
         /\ forall w1 w2,
             close_context (world s) = (Returns tt, w1) ->
             close_browser w1 = (Returns tt, w2) ->
             follow_then_unfollow_loop (Content data) interval batch_size
               fuel s
             = (Ok tt,
                St w2
                   (trace s ++ [Print msg; ContextClose; BrowserClose;
                                PlaywrightStop])
                   (followed_set s))).
Proof.
  split; [|split; [|split]].
  - destruct data; try reflexivity. discriminate.
  - intros ->. reflexivity.
  - intros items -> Hne Hdict Hunusable.
    apply load_usernames_exit. unfold parse_list.
    rewrite (dicts_not_strings items Hne Hdict), Hdict.
    rewrite usernames_of_dicts_unusable.
    + destruct items; [contradiction | reflexivity].
    + apply Forall_forall. intros x Hx.
      rewrite forallb_forall in Hunusable.
      apply list_elem_of_In, Hunusable in Hx.
      apply negb_true_iff, Hx.
  - intros err msg Hload.
    unfold follow_then_unfollow_loop, follow_and_monitor. rewrite Hload.
    split.
    + assert (Hq : Pres quiet
                     (try_finally
                        (try_except (close_and_return msg) is_Exception
                           (fun _ => load_failed))
                        (emit PlaywrightStop))).
      { apply Pres_try_finally; [tc_solve | |].
        - apply Pres_try_except;
            [tc_solve | apply close_and_return_quiet
            | intros _; apply close_and_return_quiet].
        - apply Pres_emit.
          intros s0. apply quiet_emit. discriminate. }
      destruct (Hq s) as [Hset Hl]. split; assumption.
    + intros w1 w2 H1 H2. unfold try_finally, try_except.
      rewrite (close_and_return_ok msg s w1 w2 H1 H2).
      unfold emit. cbn [world trace followed_set].
      rewrite <- !app_assoc. reflexivity.
Qed.

(** The list [[{"id": 1}]]: no record has a [username]. *)
Lemma list_loading_errors_witness :
  follow_then_unfollow_loop (D := sim_driver friendly)
    (Content (JList [JDict [(str "id", JInt 1)]]))
    DEFAULT_INTERVAL DEFAULT_BATCH_SIZE 1 start
  = (Ok tt,
     St tt ([] ++ [Print msg_no_username_objects; ContextClose; BrowserClose;
                   PlaywrightStop])
        ∅).
Proof.
  pose proof (list_loading_errors (D := sim_driver friendly)
                (JList [JDict [(str "id", JInt 1)]])
                DEFAULT_INTERVAL DEFAULT_BATCH_SIZE 1 start)
    as (_ & _ & Hrecords & Hexit).
  apply (proj2 (Hexit NoUsernamesError msg_no_username_objects
                  (Hrecords [JDict [(str "id", JInt 1)]]
                     eq_refl ltac:(discriminate) eq_refl eq_refl))
           tt tt);
    reflexivity.
Defined.

(** ** Release of the session *)

Section Release.

Context {W : Type} {D : Driver W}.

(** The cleanup of lines 288-289: [browser.close()] is reached only when
    [context.close()] has returned. *)
Lemma closes_run (s : st W) :
  (context_close;; browser_close) s
  = match close_context (world s) with
    | (Raises e, w) => (Raise e, St w (trace s) (followed_set s))
    | (Returns _, w1) =>
        match close_browser w1 with
        | (Raises e, w2) =>
            (Raise e, St w2 (trace s ++ [ContextClose]) (followed_set s))
        | (Returns _, w2) =>
            (Ok tt,
             St w2 (trace s ++ [ContextClose; BrowserClose]) (followed_set s))
        end
    end.
Proof.
  unfold context_close, browser_close, bind, call, emit.
  destruct (close_context (world s)) as [[[]|e] w1];
    cbn [world trace followed_set]; [|reflexivity].
  destruct (close_browser w1) as [[[]|e] w2];
    cbn [world trace followed_set]; [|reflexivity].
  rewrite <- app_assoc. reflexivity.
Qed.

Lemma closes_ok (s s' : st W) :
  (context_close;; browser_close) s = (Ok tt, s') ->
  trace s' = trace s ++ [ContextClose; BrowserClose].
Proof.
  rewrite closes_run.
  destruct (close_context (world s)) as [[[]|e] w1]; [|discriminate].
  destruct (close_browser w1) as [[[]|e] w2]; [|discriminate].
  intros [= <-]. reflexivity.
Qed.

(** An early return is its message and then the two closes. *)
Lemma close_and_return_closes (msg : string) (s : st W) :
  close_and_return msg s
  = (context_close;; browser_close)
      (St (world s) (trace s ++ [Print msg]) (followed_set s)).
Proof.
  unfold close_and_return. unfold bind at 1, print, emit.
  unfold bind at 1 3.
  destruct (context_close _) as [[[]|e|] s1]; try reflexivity.
  unfold bind, ret.
  destruct (browser_close s1) as [[[]|e|] s2]; reflexivity.
Qed.

Lemma close_and_return_releases (msg : string) (s s' : st W) :
  close_and_return msg s = (Ok tt, s') ->
  exists t, trace s' = t ++ [ContextClose; BrowserClose].
Proof.
  rewrite close_and_return_closes. intros Hc%closes_ok.
  eexists. exact Hc.
Qed.

(** A normal return of the monitoring phase has closed the context and
    the browser. *)
Lemma monitoring_releases_session usernames interval fuel (s s' : st W) :
  monitoring usernames interval fuel s = (Ok tt, s') ->
  exists t, trace s' = t ++ [ContextClose; BrowserClose].
Proof.
  unfold monitoring, bind at 1, set_followed_set.
  unfold bind at 1, print at 1, emit at 1. unfold try_finally.
  destruct (try_except _ _ _ _) as [[[]|e|] s1]; [| |discriminate];
    destruct ((context_close;; browser_close) s1) as [[[]|e'|] s2] eqn:Hc;
    try discriminate.
  - intros [= <-]. eexists. apply (closes_ok _ _ Hc).
Qed.

(** A list of strings that are all blank is loaded as the empty Target
    List: no follow is attempted, monitoring starts with an empty working
    set and ends at once, with the session closed. *)
Lemma blank_strings_run items interval batch_size fuel (s : st W) w1 w2 :
  items <> [] ->
  forallb is_blank_str items = true ->
  close_context (world s) = (Returns tt, w1) ->
  close_browser w1 = (Returns tt, w2) ->
  load_usernames (JList items) = Loaded []
  /\ follow_then_unfollow_loop (Content (JList items)) interval batch_size
       (S fuel) s
     = (Ok tt,
        St w2
           (trace s ++
            [Print "[INFO] Loaded {len(usernames)} usernames to follow/monitor.";
             Print "[INFO] Starting follow pass for {len(usernames)} users (batch size {batch_size})...";
             Print "[INFO] Initial follow pass finished.";
             Print "[INFO] Entering monitoring loop. Will check every {interval} seconds.";
             Print "[INFO] No more users left to monitor. Exiting.";
             ContextClose; BrowserClose; PlaywrightStop])
           ∅).
Proof.
  intros Hne Hblank Hctx Hbrowser.
  assert (Hstr : forallb is_str items = true).
  { rewrite forallb_forall in *. intros x Hx. specialize (Hblank x Hx).
    destruct x; try discriminate. reflexivity. }
  assert (Hnone : usernames_of_strings items = []).
  { clear Hne Hstr. induction items as [|x items IH]; [reflexivity|].
    simpl in Hblank. apply andb_prop in Hblank as [Hx Hrest].
    cbn [usernames_of_strings flat_map].
    fold (usernames_of_strings items). rewrite (IH Hrest), app_nil_r.
    destruct x; try discriminate. simpl in Hx.
    apply negb_true_iff in Hx. rewrite Hx. reflexivity. }
  assert (Hload : load_usernames (JList items) = Loaded []).
  { rewrite load_usernames_strings, Hnone by assumption. reflexivity. }
  split; [exact Hload|].
  unfold follow_then_unfollow_loop, follow_and_monitor. rewrite Hload.
  unfold monitoring, try_finally.
  set (cleanup := (context_close;; browser_close)).
  unfold try_except, bind, set_followed_set, print, emit, ret.
  cbn [follow_pass monitor_loop world trace followed_set List.length].
  unfold bind, get_followed_set, print, emit, ret.
  cbn [world trace followed_set list_to_set foldr].
  destruct (decide (∅ = ∅)) as [_|Hcontra]; [|contradiction].
  cbn [world trace followed_set]. subst cleanup. rewrite closes_run.
  cbn [world trace followed_set]. rewrite Hctx, Hbrowser.
  cbn [world trace followed_set]. rewrite <- !app_assoc. reflexivity.
Qed.

End Release.

(** The follow pass is not inside the [try ... finally] that closes the
    session: when it raises, here [ZeroDivisionError] with [--batch 0], or
    the Playwright error of a header wait, control leaves the controller
    with neither [context.close()] nor [browser.close()] called, and the
    session is released by the exit of the enclosing [async with] block
    alone. *)
Example follow_pass_error_skips_closes :
  (follow_then_unfollow_loop (D := sim_driver friendly)
     (Content (JList [JStr (str "a")])) DEFAULT_INTERVAL 0 1 start).1
  = Raise ZeroDivisionError
  /\ trace (follow_then_unfollow_loop (D := sim_driver friendly)
              (Content (JList [JStr (str "a")]))
              DEFAULT_INTERVAL 0 1 start).2
     = [Print "[INFO] Loaded {len(usernames)} usernames to follow/monitor.";
        Print "[INFO] Starting follow pass for {len(usernames)} users (batch size {batch_size})...";
        Print "[ACTION] Followed {uname}";
        Logged (follow_attempt (str "a") true 1 1);
        PlaywrightStop]
  /\ (follow_then_unfollow_loop (D := sim_driver header_crash)
        (Content (JList [JStr (str "a")]))
        DEFAULT_INTERVAL DEFAULT_BATCH_SIZE 1 start).1
     = Raise PlaywrightError
  /\ trace (follow_then_unfollow_loop (D := sim_driver header_crash)
              (Content (JList [JStr (str "a")]))
              DEFAULT_INTERVAL DEFAULT_BATCH_SIZE 1 start).2
     = [Print "[INFO] Loaded {len(usernames)} usernames to follow/monitor.";
        Print "[INFO] Starting follow pass for {len(usernames)} users (batch size {batch_size})...";
        PlaywrightStop].
Proof. repeat split; vm_compute; reflexivity. Qed.



(** C10 (the code departs from the claim).  ["@"] normalises to the empty
    string, yet the list [["@"]] is loaded as the Target List holding the
    empty username: one follow is attempted on it and monitoring goes on
    with it in the working set, still running after a pass. *)
Theorem at_sign_only_list_is_followed :
  normalize (str "@") = str ""
  /\ load_usernames (JList [JStr (str "@")]) = Loaded [str ""]
  /\ (follow_then_unfollow_loop (D := sim_driver aloof)
        (Content (JList [JStr (str "@")]))
        DEFAULT_INTERVAL DEFAULT_BATCH_SIZE 1 start).1
     = OutOfFuel
  /\ log_of (trace (follow_then_unfollow_loop (D := sim_driver aloof)
                      (Content (JList [JStr (str "@")]))
                      DEFAULT_INTERVAL DEFAULT_BATCH_SIZE 1 start).2)
     = [follow_attempt (str "") true 1 1; check_followback (str "") false]
  /\ elements
       (followed_set (follow_then_unfollow_loop (D := sim_driver aloof)
                        (Content (JList [JStr (str "@")]))
                        DEFAULT_INTERVAL DEFAULT_BATCH_SIZE 1 start).2)
     = [str ""].
Proof. repeat split; vm_compute; reflexivity. Qed.

(** * Further properties of the code *)

(** ** List loader (lines 194-241) *)

Section LoaderMore.

Implicit Types (items : list json) (out us : list pystr) (u s : pystr).

Lemma normalize_last u : last_is isspace (normalize u) = false.
Proof.
  destruct (strip_normalize u) as (k & Hk).
  destruct (strip_spec u) as (_ & _ & _ & _ & _ & _ & Hlast).
  destruct (normalize u) as [|c t] eqn:Hn; [reflexivity|].
  rewrite Hk, last_is_suffix in Hlast by discriminate. exact Hlast.
Qed.

Lemma normalize_strip_nonempty s : normalize s <> [] -> strip s <> [].
Proof. intros Hn Hs. apply Hn. unfold normalize. rewrite Hs. reflexivity. Qed.

(** The loader never returns a username twice, whatever the shape of the
    input. *)
Theorem load_usernames_no_duplicates (data : json) out :
  load_usernames data = Loaded out -> NoDup out.
Proof.
  intros (us & _ & ->)%load_usernames_inv. apply NoDup_dict_fromkeys.
Qed.

(** [["a", "@a", " a ", {"username": "a"}]] is one username. *)
Lemma load_usernames_no_duplicates_witness : NoDup [str "a"].
Proof.
  apply (load_usernames_no_duplicates
           (JList [JStr (str "a"); JStr (str "@a"); JStr (str " a ");
                   JDict [(str "username", JStr (str "a"))]])).
  reflexivity.
Defined.

(** No returned username starts with "@" or ends with whitespace. *)
Theorem load_usernames_names_trimmed (data : json) out u :
  load_usernames data = Loaded out ->
  u ∈ out ->
  head_is is_at u = false /\ last_is isspace u = false.
Proof.
  intros Hload Hu.
  pose proof (load_usernames_normalized _ _ Hload) as Hnorm.
  rewrite Forall_forall in Hnorm. destruct (Hnorm u Hu) as (s & ->).
  split; [apply normalize_head | apply normalize_last].
Qed.

Lemma load_usernames_names_trimmed_witness :
  head_is is_at (str "bob") = false /\ last_is isspace (str "bob") = false.
Proof.
  apply (load_usernames_names_trimmed
           (JList [JDict [(str "username", JStr (str " @@bob "))]; JInt 3])
           [str "bob"]).
  - reflexivity.
  - apply list_elem_of_here.
Defined.

Lemma item_username_dict x s :
  username_field x = Some s -> item_username x = Some s.
Proof. destruct x; simpl; try discriminate. intros H. exact H. Qed.

Lemma forallb_elem {A : Type} (f : A -> bool) (l : list A) (x : A) :
  forallb f l = true -> x ∈ l -> f x = true.
Proof.
  intros Hall Hx. rewrite forallb_forall in Hall.
  apply Hall, list_elem_of_In, Hx.
Qed.

(** Every returned username is the normal form of the username carried by
    some item of the list. *)
Theorem load_usernames_sound items out u :
  load_usernames (JList items) = Loaded out ->
  u ∈ out ->
  exists x s, x ∈ items /\ item_username x = Some s /\ u = normalize s.
Proof.
  intros (us & Hp & ->)%load_usernames_inv Hu.
  apply (proj1 (elem_of_dict_fromkeys _ _)) in Hu.
  destruct items as [|x0 items0]; [discriminate|].
  unfold parse_list in Hp; cbv beta iota in Hp.
  revert Hp. generalize (x0 :: items0). clear x0 items0. intros items Hp.
  destruct (forallb is_str items).
  - injection Hp as <-.
    apply list_elem_of_In, in_flat_map in Hu as (x & Hx & Hin).
    destruct x; try contradiction.
    destruct (truthy (strip s)); [|contradiction].
    destruct Hin as [<-|[]].
    exists (JStr s), s. split; [apply list_elem_of_In, Hx|]. split; reflexivity.
  - assert (Hflat : forall l,
               u ∈ filter (fun v => truthy v = true) l ->
               u ∈ l) by (intros l H; apply list_elem_of_filter in H; tauto).
    destruct (forallb is_dict items).
    + assert (u ∈ usernames_of_dicts items) as Hu'.
      { destruct (usernames_of_dicts items); [discriminate|].
        injection Hp as <-. exact Hu. }
      apply Hflat, list_elem_of_In, in_flat_map in Hu' as (x & Hx & Hin).
      destruct (username_field x) as [s|] eqn:Hf; [|contradiction].
      destruct Hin as [<-|[]].
      exists x, s. split; [apply list_elem_of_In, Hx|].
      split; [apply item_username_dict, Hf | reflexivity].
    + assert (u ∈ usernames_of_mixed items) as Hu'.
      { destruct (usernames_of_mixed items); [discriminate|].
        injection Hp as <-. exact Hu. }
      apply (proj1 (elem_of_dict_fromkeys _ _)) in Hu'.
      apply Hflat, list_elem_of_In, in_flat_map in Hu' as (x & Hx & Hin).
      assert (exists s, item_username x = Some s /\ u = normalize s)
        as (s & Hs & ->).
      { destruct x; simpl in Hin |- *;
          try contradiction;
          try (destruct Hin as [<-|[]]; eexists; split; reflexivity).
        destruct (dict_get (str "username") bindings) as [[]|];
          try contradiction.
        destruct Hin as [<-|[]]. eexists; split; reflexivity. }
      exists x, s. split; [apply list_elem_of_In, Hx|]. split; [exact Hs | reflexivity].
Qed.

Lemma load_usernames_sound_witness :
  exists x s,
    x ∈ [JDict [(str "username", JStr (str " @@bob "))]; JInt 3]
    /\ item_username x = Some s /\ str "bob" = normalize s.
Proof.
  apply (load_usernames_sound _ [str "bob"]).
  - reflexivity.
  - apply list_elem_of_here.
Defined.

Lemma dict_fromkeys_nonempty us : us <> [] -> dict_fromkeys us <> [].
Proof. intros Hne Hnil. apply Hne, dict_fromkeys_nil_inv, Hnil. Qed.

Lemma elem_of_nonempty {A : Type} (l : list A) (x : A) : x ∈ l -> l <> [].
Proof. intros Hx ->. apply not_elem_of_nil in Hx. exact Hx. Qed.

(** No username is lost: an item that carries a username whose normal form
    is not empty makes the load succeed with that normal form in the
    Target List. *)
Theorem load_usernames_complete items x s :
  x ∈ items ->
  item_username x = Some s ->
  normalize s <> [] ->
  exists out,
    load_usernames (JList items) = Loaded out /\ normalize s ∈ out.
Proof.
  intros Hx Hs Hn.
  assert (Hne : items <> []) by (eapply elem_of_nonempty; exact Hx).
  unfold load_usernames, parse_list.
  destruct items as [|x0 items0]; [contradiction|].
  revert Hx. generalize (x0 :: items0). clear x0 items0 Hne. intros items Hx.
  destruct (forallb is_str items) eqn:Hstr.
  - eexists. split; [reflexivity|].
    apply elem_of_dict_fromkeys, list_elem_of_In, in_flat_map.
    exists x. split; [apply list_elem_of_In, Hx|].
    pose proof (forallb_elem _ _ _ Hstr Hx) as Hxs.
    destruct x; try discriminate. simpl in Hs. injection Hs as ->.
    apply normalize_strip_nonempty, truthy_true in Hn. rewrite Hn.
    left. reflexivity.
  - destruct (forallb is_dict items) eqn:Hdict.
    + assert (Hin : normalize s ∈ usernames_of_dicts items).
      { apply list_elem_of_filter. split; [apply truthy_true, Hn|].
        apply list_elem_of_In, in_flat_map.
        exists x. split; [apply list_elem_of_In, Hx|].
        pose proof (forallb_elem _ _ _ Hdict Hx) as Hxd.
        destruct x; try discriminate.
        change (item_username (JDict bindings))
          with (username_field (JDict bindings)) in Hs.
        rewrite Hs. left. reflexivity. }
      destruct (usernames_of_dicts items) as [|c l] eqn:Hus;
        [apply not_elem_of_nil in Hin; contradiction|].
      eexists. split; [reflexivity|].
      apply elem_of_dict_fromkeys, Hin.
    + assert (Hin : normalize s ∈ usernames_of_mixed items).
      { apply elem_of_dict_fromkeys, list_elem_of_filter.
        split; [apply truthy_true, Hn|].
        apply list_elem_of_In, in_flat_map.
        exists x. split; [apply list_elem_of_In, Hx|].
        destruct x; simpl in Hs;
          try discriminate;
          try (injection Hs as ->; left; reflexivity).
        change (match dict_get (str "username") bindings with
                | Some (JStr s0) => Some s0
                | _ => None
                end) with (username_field (JDict bindings)) in Hs.
        rewrite Hs. left. reflexivity. }
      destruct (usernames_of_mixed items) as [|c l] eqn:Hus;
        [apply not_elem_of_nil in Hin; contradiction|].
      eexists. split; [reflexivity|].
      apply elem_of_dict_fromkeys, Hin.
Qed.

Lemma load_usernames_complete_witness :
  exists out,
    load_usernames
      (JList [JInt 3; JDict [(str "username", JStr (str " @@bob "))]])
    = Loaded out
    /\ normalize (str " @@bob ") ∈ out.
Proof.
  apply (load_usernames_complete _
           (JDict [(str "username", JStr (str " @@bob "))])).
  - apply list_elem_of_further, list_elem_of_here.
  - reflexivity.
  - discriminate.
Defined.

(** A list that is not made of strings only never loads as an empty Target
    List, nor with an empty username in it. *)
Theorem load_usernames_records_nonempty items out :
  forallb is_str items = false ->
  load_usernames (JList items) = Loaded out ->
  out <> [] /\ [] ∉ out.
Proof.
  intros Hstr Hload. split; [|eapply load_usernames_no_empty; eassumption].
  apply load_usernames_inv in Hload as (us & Hp & ->).
  apply dict_fromkeys_nonempty.
  destruct items as [|x0 items0]; [discriminate|].
  unfold parse_list in Hp; cbv beta iota in Hp. rewrite Hstr in Hp.
  revert Hp. generalize (x0 :: items0). intros items Hp.
  destruct (forallb is_dict items).
  - destruct (usernames_of_dicts items); [discriminate|].
    injection Hp as <-. discriminate.
  - destruct (usernames_of_mixed items); [discriminate|].
    injection Hp as <-. discriminate.
Qed.

Lemma load_usernames_records_nonempty_witness :
  [str "bob"] <> [] /\ [] ∉ [str "bob"].
Proof.
  apply (load_usernames_records_nonempty
           [JDict [(str "username", JStr (str "@bob"))]; JStr (str "bob");
            JStr (str "@")]).
  - reflexivity.
  - reflexivity.
Defined.

Lemma usernames_of_strings_app items items' :
  usernames_of_strings (items ++ items')
  = usernames_of_strings items ++ usernames_of_strings items'.
Proof. apply flat_map_app. Qed.

(** First-seen order, one item at a time: adding a string at the end of a
    list of strings leaves the usernames loaded so far in place, and puts
    the new one last when it is not blank and not there yet. *)
Theorem load_usernames_strings_snoc items s out :
  items <> [] ->
  forallb is_str items = true ->
  load_usernames (JList items) = Loaded out ->
  load_usernames (JList (items ++ [JStr s]))
  = Loaded (if truthy (strip s) && negb (bool_decide (normalize s ∈ out))
            then out ++ [normalize s] else out).
Proof.
  intros Hne Hstr Hload.
  rewrite load_usernames_strings in Hload by assumption.
  injection Hload as <-.
  rewrite load_usernames_strings.
  - rewrite usernames_of_strings_app. simpl.
    destruct (truthy (strip s)); simpl.
    + rewrite dict_fromkeys_snoc.
      destruct (decide (normalize s ∈ dict_fromkeys (usernames_of_strings items)))
        as [Hin|Hin].
      * rewrite bool_decide_eq_true_2 by exact Hin. reflexivity.
      * rewrite bool_decide_eq_false_2 by exact Hin. reflexivity.
    + rewrite app_nil_r. reflexivity.
  - destruct items; [contradiction | discriminate].
  - rewrite forallb_app, Hstr. reflexivity.
Qed.

Lemma load_usernames_strings_snoc_witness :
  load_usernames (JList ([JStr (str "@a"); JStr (str "b")] ++ [JStr (str "c ")]))
  = Loaded (if truthy (strip (str "c "))
               && negb (bool_decide (normalize (str "c ") ∈ [str "a"; str "b"]))
            then [str "a"; str "b"] ++ [normalize (str "c ")]
            else [str "a"; str "b"]).
Proof.
  apply load_usernames_strings_snoc.
  - discriminate.
  - reflexivity.
  - reflexivity.
Defined.

Lemma drop_while_all (p : N -> bool) (l v : pystr) :
  Forall (fun c => p c = true) l -> drop_while p (l ++ v) = drop_while p v.
Proof.
  induction 1 as [|c l Hc _ IH]; [reflexivity|]. simpl. rewrite Hc. exact IH.
Qed.

Lemma drop_while_app (p : N -> bool) (v r : pystr) :
  drop_while p (v ++ r)
  = match drop_while p v with
    | [] => drop_while p r
    | rest => rest ++ r
    end.
Proof.
  induction v as [|c v IH]; simpl.
  - destruct (drop_while p r); reflexivity.
  - destruct (p c); [exact IH | reflexivity].
Qed.

Lemma rstrip_app_space (v r : pystr) :
  Forall (fun c => isspace c = true) r -> rstrip (v ++ r) = rstrip v.
Proof.
  intros Hr. unfold rstrip. rewrite rev_app_distr, drop_while_all; [reflexivity|].
  apply Forall_forall. intros c Hc. rewrite Forall_forall in Hr.
  apply Hr, list_elem_of_In, in_rev, list_elem_of_In, Hc.
Qed.

(** Whitespace around an item does not count. *)
Lemma strip_padding (l u r : pystr) :
  Forall (fun c => isspace c = true) l ->
  Forall (fun c => isspace c = true) r ->
  strip (l ++ u ++ r) = strip u.
Proof.
  intros Hl Hr. unfold strip, lstrip.
  rewrite drop_while_all by exact Hl. rewrite drop_while_app.
  destruct (drop_while isspace u) as [|c rest] eqn:Hu.
  - rewrite <- (app_nil_r r), drop_while_all by exact Hr. reflexivity.
  - apply rstrip_app_space, Hr.
Qed.

Lemma parse_list_nonempty items :
  items <> [] ->
  parse_list (JList items)
  = if forallb is_str items then Loaded (usernames_of_strings items)
    else if forallb is_dict items then
           match usernames_of_dicts items with
           | [] => Exit NoUsernamesError msg_no_username_objects
           | usernames => Loaded usernames
           end
         else
           match usernames_of_mixed items with
           | [] => Exit NoUsernamesError msg_no_usernames
           | usernames => Loaded usernames
           end.
Proof. destruct items; [contradiction | reflexivity]. Qed.

Lemma flat_map_replace {A B : Type} (f : A -> list B) (a b : list A) (x y : A) :
  f x = f y -> flat_map f (a ++ x :: b) = flat_map f (a ++ y :: b).
Proof. intros Hxy. rewrite !flat_map_app. simpl. rewrite Hxy. reflexivity. Qed.

(** Padding a string item with whitespace changes nothing in what is
    loaded, whatever else the list holds. *)
Theorem load_usernames_ignores_padding (before after : list json)
    (l u r : pystr) :
  Forall (fun c => isspace c = true) l ->
  Forall (fun c => isspace c = true) r ->
  load_usernames (JList (before ++ JStr (l ++ u ++ r) :: after))
  = load_usernames (JList (before ++ JStr u :: after)).
Proof.
  intros Hl Hr. unfold load_usernames.
  rewrite !parse_list_nonempty by (destruct before; discriminate).
  rewrite !forallb_app. cbn [forallb is_str is_dict].
  unfold usernames_of_strings, usernames_of_dicts, usernames_of_mixed.
  rewrite (flat_map_replace _ before after (JStr (l ++ u ++ r)) (JStr u)).
  - rewrite (flat_map_replace _ before after (JStr (l ++ u ++ r)) (JStr u))
      by reflexivity.
    rewrite (flat_map_replace
               (fun it => match it with
                          | JStr s0 => [normalize s0]
                          | _ => match username_field it with
                                 | Some s0 => [normalize s0]
                                 | None => []
                                 end
                          end)
               before after (JStr (l ++ u ++ r)) (JStr u)).
    + reflexivity.
    + unfold normalize. rewrite strip_padding by assumption. reflexivity.
  - unfold normalize. rewrite strip_padding by assumption. reflexivity.
Qed.

Lemma load_usernames_ignores_padding_witness :
  load_usernames
    (JList ([JStr (str "b")] ++ JStr (str "  " ++ str "@a" ++ str " ") :: []))
  = load_usernames (JList ([JStr (str "b")] ++ JStr (str "@a") :: [])).
Proof.
  apply load_usernames_ignores_padding.
  - repeat constructor.
  - repeat constructor.
Defined.

End LoaderMore.

(** ** Action primitives (lines 68-151) *)

Section PrimitivesMore.

Context {W : Type} {D : Driver W}.




End PrimitivesMore.


Section PrimitiveOutcomes.

Context {W : Type} {D : Driver W}.


(** On the follow page a [True] means a click on a qualifying button: some
    visible button was read, its trimmed text holds "Follow" and neither
    "Following" nor "Requested", and the click on that button returned. *)
Lemma follow_scan_true indices (s s' : st W) :
  follow_scan indices s = (Ok true, s') ->
  exists i w raw w' w1 w2,
    i ∈ indices
    /\ locator_inner_text follow_sel i w = (Returns raw, w')
    /\ contains (str "Follow") (strip raw) = true
    /\ contains (str "Following") (strip raw) = false
    /\ contains (str "Requested") (strip raw) = false
    /\ locator_click follow_sel i w1 = (Returns tt, w2).
Proof.
  revert s. induction indices as [|i rest IH]; intros s; [discriminate|].
  cbn [follow_scan]. unfold bind at 1, call at 1.
  destruct (locator_is_visible follow_sel i (world s)) as [[[|]|e] w1] eqn:Hvis;
    try discriminate.
  - unfold bind at 1, call at 1. cbn [world trace followed_set].
    destruct (locator_inner_text follow_sel i w1) as [[raw|e] w2] eqn:Htext;
      try discriminate.
    destruct (contains (str "Follow") (strip raw)) eqn:H1; cbn [andb].
    + destruct (contains (str "Following") (strip raw)) eqn:H2; cbn [negb andb].
      * intros Hrun. apply IH in Hrun as (j & Hj).
        destruct Hj as (w & raw' & w' & wa & wb & Hin & Hj).
        exists j, w, raw', w', wa, wb.
        split; [apply list_elem_of_further, Hin | exact Hj].
      * destruct (contains (str "Requested") (strip raw)) eqn:H3; cbn [negb].
        -- intros Hrun. apply IH in Hrun as (j & Hj).
           destruct Hj as (w & raw' & w' & wa & wb & Hin & Hj).
           exists j, w, raw', w', wa, wb.
           split; [apply list_elem_of_further, Hin | exact Hj].
        -- unfold bind at 1, call at 1. cbn [world trace followed_set].
           destruct (locator_scroll_into_view_if_needed follow_sel i w2)
             as [[[]|e] w3]; try discriminate.
           unfold bind at 1, call at 1. cbn [world trace followed_set].
           destruct (locator_click follow_sel i w3) as [[[]|e] w4] eqn:Hclick;
             try discriminate.
           intros _. exists i, w1, raw, w2, w3, w4.
           split; [apply list_elem_of_here|]. repeat split; assumption.
    + intros Hrun. apply IH in Hrun as (j & Hj).
      destruct Hj as (w & raw' & w' & wa & wb & Hin & Hj).
      exists j, w, raw', w', wa, wb.
      split; [apply list_elem_of_further, Hin | exact Hj].
  - intros Hrun. apply IH in Hrun as (j & Hj).
    destruct Hj as (w & raw' & w' & wa & wb & Hin & Hj).
    exists j, w, raw', w', wa, wb.
    split; [apply list_elem_of_further, Hin | exact Hj].
Qed.

Lemma unfollow_scan_true indices (s s' : st W) :
  unfollow_scan indices s = (Ok true, s') ->
  exists i w w', i ∈ indices /\ locator_click unfollow_sel i w = (Returns tt, w').
Proof.
  revert s. induction indices as [|i rest IH]; intros s; [discriminate|].
  cbn [unfollow_scan]. unfold bind at 1, call at 1.
  destruct (locator_is_visible unfollow_sel i (world s)) as [[[|]|e] w1];
    try discriminate.
  - unfold bind at 1, call at 1. cbn [world trace followed_set].
    destruct (locator_scroll_into_view_if_needed unfollow_sel i w1)
      as [[[]|e] w2]; try discriminate.
    unfold bind at 1, call at 1. cbn [world trace followed_set].
    destruct (locator_click unfollow_sel i w2) as [[[]|e] w3] eqn:Hclick;
      try discriminate.
    unfold bind at 1.
    destruct (try_except _ _ _ _) as [[[b|]|e|] s3]; try discriminate.
    + intros _. exists i, w2, w3. split; [apply list_elem_of_here | exact Hclick].
    + intros _. exists i, w2, w3. split; [apply list_elem_of_here | exact Hclick].
  - intros Hrun. apply IH in Hrun as (j & w & w' & Hin & Hj).
    exists j, w, w'. split; [apply list_elem_of_further, Hin | exact Hj].
Qed.

End PrimitiveOutcomes.

Section PrimitiveSuccess.

Context {W : Type} {D : Driver W}.

(** What a [True] stands for.  [follow_profile] returns it only after a
    click that returned on a visible button whose trimmed text holds
    "Follow" and neither "Following" nor "Requested";
    [is_user_following_me] only after one of its two "Follows you" queries
    found something; [unfollow_profile] only after a click that returned on
    a Following / Requested button. *)
Theorem primitives_true_evidence (uname : pystr) (s s' : st W) :
  (follow_profile uname s = (Ok true, s') ->
   exists i w raw w' w1 w2,
     locator_inner_text follow_sel i w = (Returns raw, w')
     /\ contains (str "Follow") (strip raw) = true
     /\ contains (str "Following") (strip raw) = false
     /\ contains (str "Requested") (strip raw) = false
     /\ locator_click follow_sel i w1 = (Returns tt, w2))
  /\ (is_user_following_me uname s = (Ok true, s') ->
      exists sel w w',
        (sel = "text=Follows you"
         \/ sel = "header div:has-text('Follows you')")
        /\ page_query_selector sel w = (Returns true, w'))
  /\ (unfollow_profile uname s = (Ok true, s') ->
      exists i w w', locator_click unfollow_sel i w = (Returns tt, w')).
Proof.
  split; [|split].
  - unfold follow_profile, try_or_return, try_except, call.
    destruct (page_goto _ _ _) as [[[]|e0] w1];
      [|destruct (is_Exception e0); discriminate].
    cbn [world trace followed_set].
    destruct (page_wait_for_selector _ _ _) as [[[]|e1] w2];
      [|destruct (is_PlaywrightTimeoutError e1); discriminate].
    unfold bind at 1. cbn [world trace followed_set].
    destruct (locator_count follow_sel w2) as [[n|e2] w3];
      [|destruct (is_Exception e2); discriminate].
    destruct (follow_scan (seq 0 n) _) as [[[|]|e3|] s3] eqn:Hscan;
      try discriminate; [|destruct (is_Exception e3); discriminate].
    intros _.
    apply follow_scan_true in Hscan
      as (i & w & raw & w' & wa & wb & _ & Hrest).
    exists i, w, raw, w', wa, wb. exact Hrest.
  - unfold is_user_following_me, try_or_return, try_except, call.
    destruct (page_goto _ _ _) as [[[]|e0] w1];
      [|destruct (is_Exception e0); discriminate].
    cbn [world trace followed_set].
    destruct (page_wait_for_selector _ _ _) as [[[]|e1] w2];
      [|destruct (is_PlaywrightTimeoutError e1); discriminate].
    unfold bind at 1. cbn [world trace followed_set].
    destruct (page_query_selector "text=Follows you" w2)
      as [[[|]|e2] w3] eqn:Hq1;
      [| |destruct (is_Exception e2); discriminate].
    + intros _. exists "text=Follows you"%string, w2, w3.
      split; [left; reflexivity | exact Hq1].
    + unfold bind at 1. cbn [world trace followed_set].
      destruct (page_query_selector "header div:has-text('Follows you')" w3)
        as [[[|]|e3] w4] eqn:Hq2;
        [|discriminate|destruct (is_Exception e3); discriminate].
      intros _. exists "header div:has-text('Follows you')"%string, w3, w4.
      split; [right; reflexivity | exact Hq2].
  - unfold unfollow_profile, try_or_return, try_except, call.
    destruct (page_goto _ _ _) as [[[]|e0] w1];
      [|destruct (is_Exception e0); discriminate].
    cbn [world trace followed_set].
    destruct (page_wait_for_selector _ _ _) as [[[]|e1] w2];
      [|destruct (is_PlaywrightTimeoutError e1); discriminate].
    unfold bind at 1. cbn [world trace followed_set].
    destruct (locator_count unfollow_sel w2) as [[n|e2] w3];
      [|destruct (is_Exception e2); discriminate].
    destruct (unfollow_scan (seq 0 n) _) as [[[|]|e3|] s3] eqn:Hscan;
      try discriminate; [|destruct (is_Exception e3); discriminate].
    intros _.
    apply unfollow_scan_true in Hscan as (i & w & w' & _ & Hclick).
    exists i, w, w'. exact Hclick.
Qed.


End PrimitiveSuccess.


(** The friendly page: the follow is a click on the button reading
    "Follow". *)
Lemma primitives_true_evidence_witness :
  exists i w raw w' w1 w2,
    locator_inner_text (Driver := sim_driver friendly) follow_sel i w
    = (Returns raw, w')
    /\ contains (str "Follow") (strip raw) = true
    /\ contains (str "Following") (strip raw) = false
    /\ contains (str "Requested") (strip raw) = false
    /\ locator_click (Driver := sim_driver friendly) follow_sel i w1
       = (Returns tt, w2).
Proof.
  eapply (proj1 (primitives_true_evidence (D := sim_driver friendly)
                   (str "a") start _)).
  reflexivity.
Defined.


(** ** FOLLOWING_PHASE (lines 248-254) *)

Section FollowPassMore.

Context {W : Type} {D : Driver W}.

Lemma log_action_log entry (s s' : st W) r :
  log_action entry s = (r, s') ->
  log_of (trace s')
  = log_of (trace s) ++ match r with Ok _ => [entry] | _ => [] end.
Proof.
  unfold log_action, bind, call, emit.
  destruct (log_append entry (world s)) as [[[]|e] w]; intros [= <- <-]; simpl.
  - apply log_of_snoc_logged.
  - rewrite app_nil_r. reflexivity.
Qed.

Lemma quiet_log {A : Type} (c : M W A) (s s' : st W) r :
  Pres quiet c -> c s = (r, s') -> log_of (trace s') = log_of (trace s).
Proof. intros Hc E. specialize (Hc s). rewrite E in Hc. apply Hc. Qed.

Lemma batch_pause_quiet (r : Z) :
  Pres (W := W) quiet
    (if (r =? 0)%Z then
       print "[INFO] Completed {idx} follows; pausing {BATCH_PAUSE}s before next batch...";;
       call (asyncio_sleep BATCH_PAUSE 1 10)
     else ret tt).
Proof. pres. Qed.

Lemma follow_pass_log_prefix (total : nat) (batch_size : Z)
    (usernames : list pystr) (idx : nat) (s s' : st W) (r : res unit) :
  follow_pass total batch_size idx usernames s = (r, s') ->
  exists k performed,
    k <= List.length usernames
    /\ List.length performed = k
    /\ log_of (trace s')
       = log_of (trace s) ++ attempts total idx (take k usernames) performed
    /\ (r = Ok tt -> k = List.length usernames).
Proof.
  revert idx s. induction usernames as [|uname rest IH]; intros idx s Hrun.
  - injection Hrun as <- <-. exists 0, []. simpl. rewrite app_nil_r.
    repeat split; reflexivity || lia.
  - assert (Hstop0 :
               log_of (trace s') = log_of (trace s) -> r <> Ok tt ->
               exists k performed,
                 k <= List.length (uname :: rest)
                 /\ List.length performed = k
                 /\ log_of (trace s')
                    = log_of (trace s)
                      ++ attempts total idx (take k (uname :: rest)) performed
                 /\ (r = Ok tt -> k = List.length (uname :: rest))).
    { intros Hl Hr. exists 0, []. simpl. rewrite app_nil_r.
      repeat split; try assumption; try lia. intros; contradiction. }
    cbn [follow_pass] in Hrun. unfold bind at 1 in Hrun.
    destruct (follow_profile uname s) as [[b|e|] s1] eqn:E1;
      pose proof (follow_profile_log _ _ _ _ E1) as Hl1;
      [| injection Hrun as <- <-; apply Hstop0; [exact Hl1 | discriminate]..].
    unfold bind at 1 in Hrun.
    destruct (log_action (follow_attempt uname b idx total) s1)
      as [[[]|e|] s2] eqn:E2;
      pose proof (log_action_log _ _ _ _ E2) as Hl2;
      [| injection Hrun as <- <-; apply Hstop0;
         [rewrite Hl2, app_nil_r; exact Hl1 | discriminate]..].
    assert (Hstop1 :
               log_of (trace s') = log_of (trace s2) -> r <> Ok tt ->
               exists k performed,
                 k <= List.length (uname :: rest)
                 /\ List.length performed = k
                 /\ log_of (trace s')
                    = log_of (trace s)
                      ++ attempts total idx (take k (uname :: rest)) performed
                 /\ (r = Ok tt -> k = List.length (uname :: rest))).
    { intros Hl Hr. exists 1, [b]. simpl.
      rewrite Hl, Hl2, Hl1. repeat split; try lia. intros; contradiction. }
    unfold bind at 1 in Hrun.
    destruct (call (asyncio_sleep 0 MIN_DELAY_BETWEEN_ACTIONS
                      MAX_DELAY_BETWEEN_ACTIONS) s2) as [[[]|e|] s3] eqn:E3;
      pose proof (quiet_log _ _ _ _ (Pres_call quiet _) E3) as Hl3;
      [| injection Hrun as <- <-; apply Hstop1; [exact Hl3 | discriminate]..].
    unfold bind at 1 in Hrun.
    destruct (py_mod (Z.of_nat idx) batch_size s3) as [[m|e|] s4] eqn:E4;
      pose proof (quiet_log _ _ _ _ (Pres_py_mod quiet _ _) E4) as Hl4;
      [| injection Hrun as <- <-; apply Hstop1; [congruence | discriminate]..].
    unfold bind at 1 in Hrun.
    set (pause := if (m =? 0)%Z then _ else _) in Hrun.
    assert (Hpause : Pres quiet pause) by apply batch_pause_quiet.
    destruct (pause s4) as [[[]|e|] s5] eqn:E5;
      pose proof (quiet_log _ _ _ _ Hpause E5) as Hl5;
      [| injection Hrun as <- <-; apply Hstop1; [congruence | discriminate]..].
    destruct (IH (S idx) s5 Hrun) as (k & performed & Hk & Hlen & Hlog & Hok).
    exists (S k), (b :: performed). simpl.
    split; [lia|]. split; [congruence|]. split.
    + rewrite Hlog, Hl5, Hl4, Hl3, Hl2, Hl1, <- app_assoc. reflexivity.
    + intros Hr. f_equal. apply Hok, Hr.
Qed.

(** Whatever happens during the follow pass, and however it ends, the
    entries it has logged are the [follow_attempt]s of the first [k]
    usernames of the list, in order and numbered from the start, with no
    gap; when the pass returns, [k] is the whole list. *)
Theorem follow_pass_log_in_order (total : nat) (batch_size : Z)
    (usernames : list pystr) (idx : nat) (s : st W) :
  exists k performed,
    k <= List.length usernames
    /\ List.length performed = k
    /\ log_of (trace (follow_pass total batch_size idx usernames s).2)
       = log_of (trace s) ++ attempts total idx (take k usernames) performed
    /\ ((follow_pass total batch_size idx usernames s).1 = Ok tt ->
        k = List.length usernames).
Proof.
  destruct (follow_pass total batch_size idx usernames s) as [r s'] eqn:Hrun.
  exact (follow_pass_log_prefix _ _ _ _ _ _ _ Hrun).
Qed.

End FollowPassMore.

(** ** MONITORING_PHASE (lines 259-289) *)

Section MonitoringMore.

Context {W : Type} {D : Driver W}.

(** How the monitoring phase ends.  When the loop is left, normally, on a
    [KeyboardInterrupt] (absorbed at line 285) or with any other exception,
    [context.close()] is called, and [browser.close()] only once it has
    returned.  If one of the two raises, that exception is what leaves the
    phase, whatever the loop ended with, and after a failed
    [context.close()] the browser is not closed.  If both return, the phase
    returns normally after a normal end or a [KeyboardInterrupt], and lets
    any other exception of the loop through. *)
Theorem monitoring_exit_contract (usernames : list pystr) (interval : Z)
    (fuel : nat) (s : st W) (r r2 : res unit) (s1 s2 : st W) :
  monitor_loop interval fuel (monitoring_entry usernames s) = (r, s1) ->
  r <> OutOfFuel ->
  at_finally r s1 = (r2, s2) ->
  (forall e w,
      close_context (world s2) = (Raises e, w) ->
      monitoring usernames interval fuel s
      = (Raise e, St w (trace s2) (followed_set s2)))
  /\ (forall w1 e w2,
         close_context (world s2) = (Returns tt, w1) ->
         close_browser w1 = (Raises e, w2) ->
         monitoring usernames interval fuel s
         = (Raise e, St w2 (trace s2 ++ [ContextClose]) (followed_set s2)))
  /\ (forall w1 w2,
         close_context (world s2) = (Returns tt, w1) ->
         close_browser w1 = (Returns tt, w2) ->
         monitoring usernames interval fuel s
         = (r2,
            St w2 (trace s2 ++ [ContextClose; BrowserClose])
               (followed_set s2))).
Proof.
  intros Hloop Hfuel Hat.
  assert (Hrun : monitoring usernames interval fuel s
                 = match (context_close;; browser_close) s2 with
                   | (Ok _, s3) => (r2, s3)
                   | (Raise e, s3) => (Raise e, s3)
                   | (OutOfFuel, s3) => (OutOfFuel, s3)
                   end).
  { change (monitoring usernames interval fuel s)
      with (try_finally
              (try_except (monitor_loop interval fuel) is_KeyboardInterrupt
                 (fun _ =>
                    print "[INFO] Interrupted by user. Exiting monitoring loop."))
              (context_close;; browser_close)
              (monitoring_entry usernames s)).
    unfold try_finally, try_except. rewrite Hloop.
    destruct r as [[]|e|]; [| |contradiction].
    - injection Hat as <- <-. reflexivity.
    - destruct e; injection Hat as <- <-; reflexivity. }
  rewrite Hrun, closes_run. split; [|split].
  - intros e w ->. reflexivity.
  - intros w1 e w2 -> ->. reflexivity.
  - intros w1 w2 -> ->. reflexivity.
Qed.





End MonitoringMore.


(** The same interrupt, with a context whose [close()] fails: the phase
    ends with the error of the close, and the browser is not closed. *)
Lemma monitoring_exit_contract_witness :
  monitoring (D := closing_fails PlaywrightError (sim_driver interrupted))
    [str "a"] DEFAULT_INTERVAL 1 start
  = (Raise PlaywrightError,
     St tt
        [Print "[INFO] Entering monitoring loop. Will check every {interval} seconds.";
         Print "[CHECK] Monitoring pass started (checking {len(followed_set)} users)...";
         Print "[INFO] Interrupted by user. Exiting monitoring loop."]
        {[ str "a" ]}).
Proof.
  refine (proj1 (monitoring_exit_contract
                   (D := closing_fails PlaywrightError (sim_driver interrupted))
                   [str "a"] DEFAULT_INTERVAL 1 start
                   (Raise KeyboardInterrupt) (Ok tt)
                   (St tt
                       [Print "[INFO] Entering monitoring loop. Will check every {interval} seconds.";
                        Print "[CHECK] Monitoring pass started (checking {len(followed_set)} users)..."]
                       {[ str "a" ]})
                   (St tt
                       [Print "[INFO] Entering monitoring loop. Will check every {interval} seconds.";
                        Print "[CHECK] Monitoring pass started (checking {len(followed_set)} users)...";
                        Print "[INFO] Interrupted by user. Exiting monitoring loop."]
                       {[ str "a" ]})
                   _ _ _) PlaywrightError tt _).
  - vm_compute. reflexivity.
  - discriminate.
  - reflexivity.
  - reflexivity.
Defined.

#[global] Instance keeps_frame {W : Type} (u : pystr) :
  Frame (keeps (W := W) u).
Proof.
  split.
  - split.
    + intros s Hin. exact Hin.
    + intros s1 s2 s3 H12 H23 Hin. apply H23, H12, Hin.
  - intros s w Hin. exact Hin.
  - intros s msg Hin. exact Hin.
Qed.

Section WorkingSet.

Context {W : Type} {D : Driver W}.

Lemma check_user_keeps (u v : pystr) :
  (forall s : st W, (is_user_following_me u s).1 <> Ok true)
  \/ (forall s : st W, (unfollow_profile u s).1 <> Ok true) ->
  Pres (keeps u) (check_user v).
Proof.
  intros Hnever s Hin.
  destruct (decide (u ∈ followed_set (check_user v s).2)) as [Hu|Hu];
    [exact Hu|].
  exfalso.
  destruct (check_user_removes v s u Hin Hu) as (-> & s1 & s2 & E1 & E2).
  destruct Hnever as [Hcheck|Hunfollow].
  - apply (Hcheck s). rewrite E1. reflexivity.
  - apply (Hunfollow s1). rewrite E2. reflexivity.
Qed.

(** A user who is never seen to follow back, or whom the program never
    manages to unfollow, stays in the working set through any number of
    monitoring passes. *)
Theorem unresponsive_user_stays (u : pystr) (interval : Z) (fuel : nat)
    (s : st W) :
  (forall s0 : st W, (is_user_following_me u s0).1 <> Ok true)
  \/ (forall s0 : st W, (unfollow_profile u s0).1 <> Ok true) ->
  u ∈ followed_set s ->
  u ∈ followed_set (monitor_loop interval fuel s).2.
Proof.
  intros Hnever. revert s.
  change (Pres (keeps u) (monitor_loop interval fuel)).
  induction fuel as [|fuel IH]; cbn [monitor_loop].
  - apply Pres_out_of_fuel; tc_solve.
  - apply Pres_bind;
      [tc_solve | apply Pres_get_followed_set; tc_solve | intros fs].
    destruct (decide (fs = ∅)); [apply Pres_print; tc_solve|].
    apply Pres_bind; [tc_solve | | intros _; exact IH].
    unfold monitor_pass.
    apply Pres_bind; [tc_solve | apply Pres_print; tc_solve | intros _].
    apply Pres_bind; [tc_solve | apply Pres_list_of; tc_solve | intros unames].
    apply Pres_bind; [tc_solve | | intros _].
    + apply Pres_for_each; [tc_solve|]. intros v.
      apply check_user_keeps, Hnever.
    + apply Pres_bind; [tc_solve | apply Pres_print; tc_solve | intros _].
      apply Pres_call; tc_solve.
Qed.

Lemma primitive_same_set {A : Type} (c : M W A) (s s' : st W) r :
  Pres same_set c -> c s = (r, s') -> followed_set s' = followed_set s.
Proof. intros Hc E. specialize (Hc s). rewrite E in Hc. exact Hc. Qed.

Lemma check_user_unfollows (uname : pystr) (s : st W) :
  everyone_follows_back -> log_returns -> sleep_returns ->
  exists s',
    check_user uname s = (Ok tt, s')
    /\ followed_set s' = followed_set s ∖ {[uname]}.
Proof.
  intros [Hcheck Hunfollow] Hlog Hsleep.
  destruct (Hcheck uname s) as (s1 & E1).
  destruct (Hunfollow uname s1) as (s2 & E2).
  pose proof (primitive_same_set _ _ _ _
                (Pres_is_user_following_me same_set uname) E1) as H1.
  pose proof (primitive_same_set _ _ _ _
                (Pres_unfollow_profile same_set uname) E2) as H2.
  destruct (log_action_ok (unfollow_on_followback uname true) s2 Hlog)
    as (w3 & E3).
  set (s3 := St w3 _ _) in E3.
  destruct (sleep_ok 0 8 18
              (St (world s3) (trace s3) (followed_set s3 ∖ {[uname]})) Hsleep)
    as (w4 & E4).
  eexists. split.
  - unfold check_user, try_except. unfold bind at 1 2.
    rewrite E1; cbv beta iota. unfold bind at 1.
    rewrite E2; cbv beta iota. unfold bind at 1.
    rewrite E3; cbv beta iota. unfold discard at 1.
    exact E4.
  - cbn [followed_set]. subst s3. cbn [followed_set]. congruence.
Qed.

Lemma for_each_unfollows (l : list pystr) (s : st W) :
  everyone_follows_back -> log_returns -> sleep_returns ->
  exists s',
    for_each l check_user s = (Ok tt, s')
    /\ followed_set s' = followed_set s ∖ list_to_set l.
Proof.
  intros Hall Hlog Hsleep. revert s.
  induction l as [|u l IH]; intros s.
  - exists s. split; [reflexivity|].
    rewrite list_to_set_nil, difference_empty_L. reflexivity.
  - destruct (check_user_unfollows u s Hall Hlog Hsleep) as (s1 & E1 & H1).
    destruct (IH s1) as (s2 & E2 & H2).
    exists s2. split.
    + cbn [for_each]. unfold bind. rewrite E1. exact E2.
    + rewrite H2, H1, list_to_set_cons, difference_difference_l_L.
      reflexivity.
Qed.

Lemma closes_return_ok (s : st W) :
  closes_return ->
  exists w,
    (context_close;; browser_close) s
    = (Ok tt, St w (trace s ++ [ContextClose; BrowserClose]) (followed_set s)).
Proof.
  intros Hclose. rewrite closes_run.
  destruct (Hclose (world s)) as [(w1 & ->) _].
  destruct (Hclose w1) as [_ (w2 & ->)].
  exists w2. reflexivity.
Qed.

(** When every user follows back and every unfollow goes through, one
    pass empties the working set, in whatever order it is gone through,
    and the phase is over at the second look: it returns normally with
    nobody left to monitor. *)
Theorem everyone_follows_back_ends (usernames : list pystr) (interval : Z)
    (fuel : nat) (s : st W) :
  everyone_follows_back -> log_returns -> sleep_returns -> closes_return ->
  exists s',
    monitoring usernames interval (S (S fuel)) s = (Ok tt, s')
    /\ followed_set s' = ∅.
Proof.
  intros Hall Hlog Hsleep Hclose.
  assert (Hloop : forall s0 : st W,
             exists s1,
               monitor_loop interval (S (S fuel)) s0 = (Ok tt, s1)
               /\ followed_set s1 = ∅).
  { intros s0. cbn [monitor_loop]. unfold bind at 1, get_followed_set.
    destruct (decide (followed_set s0 = ∅)) as [Hempty|Hne].
    - eexists. split; [reflexivity | exact Hempty].
    - destruct (for_each_unfollows (list_set (world s0) (followed_set s0))
                  (St (world s0)
                      (trace s0 ++ [Print "[CHECK] Monitoring pass started (checking {len(followed_set)} users)..."])
                      (followed_set s0)) Hall Hlog Hsleep)
        as (s1 & E1 & H1).
      cbn [followed_set] in H1.
      rewrite list_to_set_list_set, difference_diag_L in H1.
      destruct (sleep_ok interval 0 60
                  (St (world s1)
                      (trace s1 ++ [Print "[CHECK] Monitoring pass complete at {now_iso()}. Sleeping {interval}s before next pass."])
                      (followed_set s1)) Hsleep) as (w2 & E2).
      eexists. split.
      + unfold bind at 1. unfold monitor_pass.
        unfold bind at 1, print at 1, emit at 1. unfold bind at 1, list_of.
        cbn [world]. unfold bind at 1.
        rewrite E1; cbv beta iota.
        unfold bind at 1, print at 1, emit at 1.
        rewrite E2; cbv beta iota.
        unfold bind at 1. cbn [followed_set].
        destruct (decide (followed_set s1 = ∅)) as [_|Hcontra];
          [reflexivity | contradiction].
      + cbn [followed_set]. exact H1. }
  destruct (Hloop (monitoring_entry usernames s)) as (s1 & E1 & H1).
  destruct (closes_return_ok s1 Hclose) as (w2 & E2).
  eexists. split.
  - change (monitoring usernames interval (S (S fuel)) s)
      with (try_finally
              (try_except (monitor_loop interval (S (S fuel)))
                 is_KeyboardInterrupt
                 (fun _ =>
                    print "[INFO] Interrupted by user. Exiting monitoring loop."))
              (context_close;; browser_close)
              (monitoring_entry usernames s)).
    unfold try_finally, try_except. rewrite E1, E2. reflexivity.
  - cbn [followed_set]. exact H1.
Qed.

End WorkingSet.

(** Nobody follows back on the aloof page: ["a"] is still watched after
    three passes. *)
Lemma unresponsive_user_stays_witness :
  str "a" ∈ followed_set
    (monitor_loop (D := sim_driver aloof) DEFAULT_INTERVAL 3 watching_a).2.
Proof.
  apply (unresponsive_user_stays (D := sim_driver aloof)).
  - left. intros s0. discriminate.
  - apply elem_of_singleton. reflexivity.
Defined.

(** Everybody follows back on the friendly page. *)
Lemma everyone_follows_back_ends_witness :
  exists s',
    monitoring (D := sim_driver friendly) [str "a"; str "b"] DEFAULT_INTERVAL 2
      start = (Ok tt, s')
    /\ followed_set s' = ∅.
Proof.
  apply (everyone_follows_back_ends (D := sim_driver friendly)).
  - split; intros u s; eexists; reflexivity.
  - intros entry w. eexists. reflexivity.
  - intros base lo hi w. eexists. reflexivity.
  - intros w. split; eexists; reflexivity.
Defined.

(** ** The controller (lines 182-289) *)

Section ControllerMore.

Context {W : Type} {D : Driver W}.

(** A normal return of the controller means the session was released:
    whichever path was taken, the last things done before leaving the
    [async with] block are [context.close()] and [browser.close()]. *)
Theorem normal_return_releases_session (file : list_file)
    (interval batch_size : Z) (fuel : nat) (s s' : st W) :
  follow_then_unfollow_loop file interval batch_size fuel s = (Ok tt, s') ->
  exists t, trace s' = t ++ [ContextClose; BrowserClose; PlaywrightStop].
Proof.
  unfold follow_then_unfollow_loop, try_finally, emit.
  destruct (follow_and_monitor file interval batch_size fuel s)
    as [[[]|e|] s1] eqn:Hbody; try discriminate.
  intros [= <-]. cbn [trace].
  assert (exists t, trace s1 = t ++ [ContextClose; BrowserClose]) as (t & ->).
  { pose proof close_and_return_releases as Hclose.
    unfold follow_and_monitor in Hbody.
    destruct file as [|e|data].
    - eapply Hclose, Hbody.
    - destruct (is_Exception e); [eapply Hclose, Hbody | discriminate].
    - destruct (load_usernames data) as [usernames|err msg].
      2:{ unfold try_except in Hbody.
          destruct (close_and_return msg s) as [[[]|e|] s0] eqn:Hfirst;
            try discriminate.
          - injection Hbody as <-. eapply Hclose, Hfirst.
          - destruct (is_Exception e); [|discriminate].
            eapply Hclose, Hbody. }
      unfold bind at 1 2, print at 1 2, emit at 1 2 in Hbody.
      unfold bind at 1 in Hbody.
      destruct (follow_pass _ _ _ _ _) as [[[]|e|] s2]; try discriminate.
      unfold bind at 1, print at 1, emit at 1 in Hbody.
      eapply monitoring_releases_session, Hbody. }
  exists t. rewrite <- app_assoc. reflexivity.
Qed.

(** A failing [context.close()] on an early return.  The early returns of
    list loading (lines 196-234) sit inside the [try] of line 193: when
    the [context.close()] of one of them raises an [Exception], the handler
    of line 236 takes it for a failure to load the file, prints its message
    and calls both closes again, and the controller returns normally when
    these return.  The return for a missing file (lines 184-189) is not
    guarded: there the exception leaves the controller, and
    [browser.close()] is not called. *)
Theorem early_return_close_failure (data : json) (interval batch_size : Z)
    (fuel : nat) (s : st W) (e : exn) (w : W) :
  close_context (world s) = (Raises e, w) ->
  (forall err msg w1 w2,
      load_usernames data = Exit err msg ->
      is_Exception e = true ->
      close_context w = (Returns tt, w1) ->
      close_browser w1 = (Returns tt, w2) ->
      follow_then_unfollow_loop (Content data) interval batch_size fuel s
      = (Ok tt,
         St w2
            (trace s ++
             [Print msg;
              Print "[ERROR] Failed to load/parse list file: {e}";
              ContextClose; BrowserClose; PlaywrightStop])
            (followed_set s)))
  /\ follow_then_unfollow_loop NoSuchFile interval batch_size fuel s
     = (Raise e,
        St w
           (trace s ++
            [Print "[ERROR] Followers list file not found: {list_file}";
             PlaywrightStop])
           (followed_set s)).
Proof.
  intros Hfail.
  assert (Hfirst : forall msg,
             close_and_return msg s
             = (Raise e, St w (trace s ++ [Print msg]) (followed_set s))).
  { intros msg. rewrite close_and_return_closes, closes_run.
    cbn [world trace followed_set]. rewrite Hfail. reflexivity. }
  split.
  - intros err msg w1 w2 Hload He H1 H2.
    unfold follow_then_unfollow_loop, follow_and_monitor. rewrite Hload.
    unfold try_finally, try_except. rewrite Hfirst, He.
    unfold load_failed.
    rewrite (close_and_return_ok _ _ w1 w2) by assumption.
    unfold emit. cbn [world trace followed_set].
    rewrite <- !app_assoc. reflexivity.
  - unfold follow_then_unfollow_loop, follow_and_monitor, try_finally.
    rewrite Hfirst. unfold emit. cbn [world trace followed_set].
    rewrite <- !app_assoc. reflexivity.
Qed.

End ControllerMore.

(** The empty list, with a context whose first [close()] fails. *)
Lemma early_return_close_failure_witness :
  follow_then_unfollow_loop
    (D := closing_fails_once PlaywrightError (sim_driver friendly))
    (Content (JList [])) DEFAULT_INTERVAL DEFAULT_BATCH_SIZE 1 (St false [] ∅)
  = (Ok tt,
     St true
        ([] ++
         [Print msg_empty;
          Print "[ERROR] Failed to load/parse list file: {e}";
          ContextClose; BrowserClose; PlaywrightStop])
        ∅).
Proof.
  apply (proj1 (early_return_close_failure
                  (D := closing_fails_once PlaywrightError (sim_driver friendly))
                  (JList []) DEFAULT_INTERVAL DEFAULT_BATCH_SIZE 1
                  (St false [] ∅) PlaywrightError true eq_refl)
           EmptyListError msg_empty true true);
    reflexivity.
Defined.

(** The run of [["a"]] on the friendly page returns after two looks at the
    working set. *)
Lemma normal_return_releases_session_witness :
  exists t,
    trace (follow_then_unfollow_loop (D := sim_driver friendly)
             (Content (JList [JStr (str "a")]))
             DEFAULT_INTERVAL DEFAULT_BATCH_SIZE 2 start).2
    = t ++ [ContextClose; BrowserClose; PlaywrightStop].
Proof.
  apply (normal_return_releases_session (D := sim_driver friendly)
           (Content (JList [JStr (str "a")]))
           DEFAULT_INTERVAL DEFAULT_BATCH_SIZE 2 start).
  vm_compute. reflexivity.
Defined.

(** ** One log entry per user and pass (lines 267-280) *)

Section Halting.

Context {W : Type}.







End Halting.


Section PassEntries.

Context {W : Type} {D : Driver W}.









End PassEntries.


(** ** Batch pauses (lines 252-254) *)

Lemma pauses_app (t t' : list event) : pauses (t ++ t') = pauses t + pauses t'.
Proof. unfold pauses. rewrite filter_app, length_app. reflexivity. Qed.

Lemma pauses_snoc_other (t : list event) (ev : event) :
  ev <> Print batch_pause_message -> pauses (t ++ [ev]) = pauses t.
Proof.
  intros Hne. rewrite pauses_app. unfold pauses at 2.
  rewrite filter_cons_False by exact Hne. simpl. lia.
Qed.

Lemma pauses_snoc_pause (t : list event) :
  pauses (t ++ [Print batch_pause_message]) = S (pauses t).
Proof.
  rewrite pauses_app. unfold pauses at 2.
  rewrite filter_cons_True by reflexivity. simpl. lia.
Qed.

Section Unpaused.

Context {W : Type} {D : Driver W}.

Lemma unpaused_bind {A B : Type} (c : M W A) (k : A -> M W B) :
  Pres unpaused c -> (forall a, Pres unpaused (k a)) -> Pres unpaused (bind c k).
Proof.
  intros Hc Hk s. unfold bind. specialize (Hc s).
  destruct (c s) as [[a|e|] s1]; simpl in *; try exact Hc.
  unfold unpaused in *. rewrite <- Hc. apply Hk.
Qed.

Lemma unpaused_try_except {A : Type} (body : M W A) catches handler :
  Pres unpaused body -> (forall e, Pres unpaused (handler e)) ->
  Pres unpaused (try_except body catches handler).
Proof.
  intros Hb Hh s. unfold try_except. specialize (Hb s).
  destruct (body s) as [[a|e|] s1]; simpl in *; try exact Hb.
  destruct (catches e); [|exact Hb].
  unfold unpaused in *. rewrite <- Hb. apply Hh.
Qed.

Lemma unpaused_try_or_return {A B : Type} (body : M W A) catches
    (handler : exn -> M W B) (k : A -> M W B) :
  Pres unpaused body -> (forall e, Pres unpaused (handler e)) ->
  (forall a, Pres unpaused (k a)) ->
  Pres unpaused (try_or_return body catches handler k).
Proof.
  intros Hb Hh Hk s. unfold try_or_return. specialize (Hb s).
  destruct (body s) as [[a|e|] s1]; simpl in *; try exact Hb.
  - unfold unpaused in *. rewrite <- Hb. apply Hk.
  - destruct (catches e); [|exact Hb].
    unfold unpaused in *. rewrite <- Hb. apply Hh.
Qed.

Lemma unpaused_ret {A : Type} (a : A) : Pres (W := W) unpaused (ret a).
Proof. intros s. reflexivity. Qed.

Lemma unpaused_call {A : Type} (op : W -> result A * W) :
  Pres unpaused (call op).
Proof.
  intros s. unfold call. destruct (op (world s)) as [[a|e] w]; reflexivity.
Qed.

Lemma unpaused_print (msg : string) :
  msg <> batch_pause_message -> Pres (W := W) unpaused (print msg).
Proof.
  intros Hne s. unfold unpaused. cbn [print emit snd trace].
  apply pauses_snoc_other. intros [= H]. contradiction.
Qed.

Lemma unpaused_follow_scan indices : Pres unpaused (follow_scan indices).
Proof.
  induction indices as [|i rest IH]; cbn [follow_scan].
  - apply unpaused_ret.
  - apply unpaused_bind; [apply unpaused_call | intros visible].
    destruct visible; [|exact IH].
    apply unpaused_bind; [apply unpaused_call | intros raw].
    destruct (_ && _); [|exact IH].
    apply unpaused_bind; [apply unpaused_call | intros _].
    apply unpaused_bind; [apply unpaused_call | intros _].
    apply unpaused_bind; [apply unpaused_print; discriminate | intros _].
    apply unpaused_ret.
Qed.

(** [follow_profile] announces no batch pause. *)
Lemma unpaused_follow_profile uname : Pres unpaused (follow_profile uname).
Proof.
  unfold follow_profile.
  apply unpaused_try_or_return; [apply unpaused_call | intros e | intros _].
  { apply unpaused_bind; [apply unpaused_print; discriminate | intros _].
    apply unpaused_ret. }
  apply unpaused_try_or_return; [apply unpaused_call | intros e | intros _].
  { apply unpaused_bind; [apply unpaused_print; discriminate | intros _].
    apply unpaused_ret. }
  apply unpaused_try_except; [|intros e].
  - apply unpaused_bind; [apply unpaused_call | intros count].
    apply unpaused_follow_scan.
  - apply unpaused_bind; [apply unpaused_print; discriminate | intros _].
    apply unpaused_ret.
Qed.

(** The multiples of [b] among [idx, ..., idx + n - 1]. *)
Lemma multiples_step (b i : Z) :
  (1 <= b)%Z ->
  (i / b - (i - 1) / b = if (i mod b =? 0)%Z then 1 else 0)%Z.
Proof.
  intros Hb.
  pose proof (Z.div_mod i b ltac:(lia)) as Hdm.
  pose proof (Z.mod_pos_bound i b ltac:(lia)) as Hr.
  destruct (Z.eqb_spec (i mod b) 0) as [H0|H0].
  - assert ((i - 1) / b = i / b - 1)%Z as ->; [|lia].
    symmetry. apply (Z.div_unique_pos _ _ _ (b - 1)); lia.
  - assert ((i - 1) / b = i / b)%Z as ->; [|lia].
    symmetry. apply (Z.div_unique_pos _ _ _ (i mod b - 1)); lia.
Qed.

Lemma follow_pass_pauses total batch_size (usernames : list pystr) :
  (1 <= batch_size)%Z -> follow_returns -> log_returns -> sleep_returns ->
  forall idx (s : st W),
  exists s',
    follow_pass total batch_size idx usernames s = (Ok tt, s')
    /\ Z.of_nat (pauses (trace s'))
       = (Z.of_nat (pauses (trace s))
          + ((Z.of_nat idx + Z.of_nat (List.length usernames) - 1) / batch_size
             - (Z.of_nat idx - 1) / batch_size))%Z.
Proof.
  intros Hb Hfollow Hlog Hsleep.
  induction usernames as [|uname rest IH]; intros idx s.
  - exists s. split; [reflexivity|]. cbn [List.length].
    replace (Z.of_nat idx + Z.of_nat 0 - 1)%Z with (Z.of_nat idx - 1)%Z by lia.
    lia.
  - destruct (Hfollow uname s) as (b & s1 & E1).
    assert (Hp1 : pauses (trace s1) = pauses (trace s)).
    { pose proof (unpaused_follow_profile uname s) as H. rewrite E1 in H.
      exact H. }
    destruct (log_action_ok (follow_attempt uname b idx total) s1 Hlog)
      as (w2 & E2).
    set (s2 := St w2 _ _) in E2.
    destruct (sleep_ok 0 MIN_DELAY_BETWEEN_ACTIONS MAX_DELAY_BETWEEN_ACTIONS
                s2 Hsleep) as (w3 & E3).
    set (s3 := St w3 _ _) in E3.
    pose proof (py_mod_ok (Z.of_nat idx) batch_size s3 ltac:(lia)) as E4.
    assert (Hp3 : pauses (trace s3) = pauses (trace s)).
    { subst s3 s2. cbn [trace]. rewrite pauses_snoc_other by discriminate.
      exact Hp1. }
    assert (exists s4,
               (if ((Z.of_nat idx mod batch_size) =? 0)%Z
                then
                  print "[INFO] Completed {idx} follows; pausing {BATCH_PAUSE}s before next batch...";;
                  call (asyncio_sleep BATCH_PAUSE 1 10)
                else ret tt) s3 = (Ok tt, s4)
               /\ Z.of_nat (pauses (trace s4))
                  = (Z.of_nat (pauses (trace s3))
                     + if (Z.of_nat idx mod batch_size =? 0)%Z then 1 else 0)%Z)
      as (s4 & E5 & Hp5).
    { destruct ((Z.of_nat idx mod batch_size) =? 0)%Z.
      - unfold bind, print, emit.
        destruct (sleep_ok BATCH_PAUSE 1 10
                    (St (world s3) (trace s3 ++ [Print "[INFO] Completed {idx} follows; pausing {BATCH_PAUSE}s before next batch..."])
                        (followed_set s3)) Hsleep) as (w4 & E).
        rewrite E. eexists. split; [reflexivity|].
        cbn [trace]. fold batch_pause_message.
        rewrite pauses_snoc_pause. lia.
      - exists s3. split; [reflexivity | lia]. }
    destruct (IH (S idx) s4) as (s' & E6 & Hp6).
    exists s'. split.
    + cbn [follow_pass]. unfold bind in E5 |- *.
      rewrite E1; cbv beta iota. rewrite E2; cbv beta iota.
      rewrite E3; cbv beta iota. rewrite E4; cbv beta iota.
      rewrite E5; cbv beta iota. exact E6.
    + rewrite Hp6, Hp5, Hp3.
      rewrite <- (multiples_step batch_size (Z.of_nat idx) Hb).
      cbn [List.length].
      replace (Z.of_nat (S idx) + Z.of_nat (List.length rest) - 1)%Z
        with (Z.of_nat idx + Z.of_nat (S (List.length rest)) - 1)%Z by lia.
      replace (Z.of_nat (S idx) - 1)%Z with (Z.of_nat idx) by lia.
      lia.
Qed.

(** Pacing of the follow pass.  With a batch size [b >= 1] and
    collaborators that return, a pass over [n] usernames (numbered from 1)
    announces and takes exactly [n / b] batch pauses: one after every [b]
    attempts. *)
Theorem follow_pass_pause_count (total : nat) (batch_size : Z)
    (usernames : list pystr) (s : st W) :
  (1 <= batch_size)%Z -> follow_returns -> log_returns -> sleep_returns ->
  exists s',
    follow_pass total batch_size 1 usernames s = (Ok tt, s')
    /\ Z.of_nat (pauses (trace s'))
       = (Z.of_nat (pauses (trace s))
          + Z.of_nat (List.length usernames) / batch_size)%Z.
Proof.
  intros Hb Hfollow Hlog Hsleep.
  destruct (follow_pass_pauses total batch_size usernames
              Hb Hfollow Hlog Hsleep 1 s) as (s' & Hrun & Hp).
  exists s'. split; [exact Hrun|]. rewrite Hp.
  replace (Z.of_nat 1 + Z.of_nat (List.length usernames) - 1)%Z
    with (Z.of_nat (List.length usernames)) by lia.
  replace (Z.of_nat 1 - 1)%Z with 0%Z by lia.
  rewrite Z.div_0_l by lia. lia.
Qed.

End Unpaused.

(** Five usernames with a batch size of 2: two pauses. *)
Lemma follow_pass_pause_count_witness :
  exists s',
    follow_pass (D := sim_driver friendly) 5 2 1
      [str "a"; str "b"; str "c"; str "d"; str "e"] start = (Ok tt, s')
    /\ Z.of_nat (pauses (trace s'))
       = (Z.of_nat (pauses (trace start))
          + Z.of_nat
              (List.length [str "a"; str "b"; str "c"; str "d"; str "e"]) / 2)%Z.
Proof.
  apply (follow_pass_pause_count (D := sim_driver friendly)).
  - lia.
  - intros u s. eexists _, _. reflexivity.
  - intros entry w. eexists. reflexivity.
  - intros base lo hi w. eexists. reflexivity.
Defined.

(** ** Shape of the log of a run (lines 246-289) *)

#[global] Instance monitoring_log_frame {W : Type} (T : gset pystr) :
  Frame (monitoring_log (W := W) T).
Proof.
  assert (Hsame : forall s s' : st W,
             followed_set s' = followed_set s ->
             log_of (trace s') = log_of (trace s) ->
             monitoring_log T s s').
  { intros s s' Hset Hlog Hsub. rewrite Hset. split; [exact Hsub|].
    exists []. rewrite app_nil_r. split; [exact Hlog | constructor]. }
  split.
  - split.
    + intros s. apply Hsame; reflexivity.
    + intros s1 s2 s3 H12 H23 Hsub.
      destruct (H12 Hsub) as (Hsub2 & new1 & Hl1 & Hall1).
      destruct (H23 Hsub2) as (Hsub3 & new2 & Hl2 & Hall2).
      split; [exact Hsub3|]. exists (new1 ++ new2).
      split; [rewrite Hl2, Hl1, app_assoc; reflexivity|].
      apply Forall_app. split; assumption.
  - intros s w. apply Hsame; reflexivity.
  - intros s msg. apply Hsame; [reflexivity|]. apply log_of_snoc_print.
Qed.

Lemma monitoring_log_emit {W : Type} (T : gset pystr) (s : st W) (ev : event) :
  (forall entry, ev <> Logged entry) ->
  monitoring_log T s (St (world s) (trace s ++ [ev]) (followed_set s)).
Proof.
  intros Hev Hsub. split; [exact Hsub|]. exists []. rewrite app_nil_r.
  split; [apply (proj2 (quiet_emit s ev Hev)) | constructor].
Qed.

Lemma log_of_app_other (t : list event) :
  log_of (t ++ [PlaywrightStop]) = log_of t.
Proof. rewrite log_of_app. apply app_nil_r. Qed.

Section RunLog.

Context {W : Type} {D : Driver W}.

Lemma monitoring_log_entry (T : gset pystr) entry :
  is_follow_attempt entry = false ->
  entry_username entry ∈ T ->
  Pres (monitoring_log T) (log_action entry).
Proof.
  intros Hkind Hin s Hsub. unfold log_action, bind, call, emit.
  destruct (log_append entry (world s)) as [[[]|e] w]; cbn [snd followed_set trace].
  - split; [exact Hsub|]. exists [entry].
    split; [apply log_of_snoc_logged|]. constructor; [|constructor].
    split; assumption.
  - split; [exact Hsub|]. exists []. rewrite app_nil_r.
    split; [reflexivity | constructor].
Qed.

Lemma monitoring_log_discard (T : gset pystr) uname :
  Pres (W := W) (monitoring_log T) (discard uname).
Proof.
  intros s Hsub. cbn [discard snd followed_set trace]. split.
  - intros x [Hx _]%elem_of_difference. apply Hsub, Hx.
  - exists []. rewrite app_nil_r. split; [reflexivity | constructor].
Qed.

Lemma monitoring_log_check_user (T : gset pystr) uname :
  uname ∈ T -> Pres (monitoring_log T) (check_user uname).
Proof.
  intros Hin. unfold check_user.
  apply Pres_bind; [tc_solve | | intros _; apply Pres_call; tc_solve].
  apply Pres_try_except; [tc_solve | | intros e].
  - apply Pres_bind;
      [tc_solve | apply Pres_is_user_following_me; tc_solve | intros follows_me].
    destruct follows_me;
      [|apply monitoring_log_entry; [reflexivity | exact Hin]].
    apply Pres_bind;
      [tc_solve | apply Pres_unfollow_profile; tc_solve | intros unfollowed].
    apply Pres_bind;
      [tc_solve | apply monitoring_log_entry; [reflexivity | exact Hin]
      | intros _].
    destruct unfollowed;
      [apply monitoring_log_discard | apply Pres_ret; tc_solve].
  - apply Pres_bind; [tc_solve | apply Pres_print; tc_solve | intros _].
    apply monitoring_log_entry; [reflexivity | exact Hin].
Qed.

Lemma monitoring_log_for_each (T : gset pystr) (l : list pystr) :
  Forall (fun u => u ∈ T) l ->
  Pres (monitoring_log T) (for_each l check_user).
Proof.
  induction 1 as [|u l Hu _ IH]; cbn [for_each].
  - apply Pres_ret; tc_solve.
  - apply Pres_bind;
      [tc_solve | apply monitoring_log_check_user, Hu | intros _; exact IH].
Qed.

Lemma monitoring_log_pass (T : gset pystr) (interval : Z) (fs : gset pystr) :
  fs ⊆ T -> Pres (monitoring_log T) (monitor_pass interval fs).
Proof.
  intros Hsub. unfold monitor_pass.
  apply Pres_bind; [tc_solve | apply Pres_print; tc_solve | intros _].
  intros s. unfold bind at 1, list_of. cbv beta iota.
  revert s. generalize (fun s : st W => elem_of_list_set (world s) fs).
  intros Hin s.
  apply (bind_at (monitoring_log T)); [|intros _].
  - apply monitoring_log_for_each, Forall_forall.
    intros u Hu%Hin. apply Hsub, Hu.
  - apply Pres_bind; [tc_solve | apply Pres_print; tc_solve | intros _].
    apply Pres_call; tc_solve.
Qed.

Lemma monitoring_log_loop (T : gset pystr) (interval : Z) (fuel : nat) :
  Pres (monitoring_log T) (monitor_loop interval fuel).
Proof.
  induction fuel as [|fuel IH]; cbn [monitor_loop].
  - apply Pres_out_of_fuel; tc_solve.
  - intros s. unfold bind at 1, get_followed_set.
    destruct (decide (followed_set s = ∅)); [apply Pres_print; tc_solve|].
    apply (bind_at (monitoring_log T)); [|intros _; exact IH].
    intros Hsub. apply (monitoring_log_pass T interval _ Hsub s Hsub).
Qed.

Lemma monitoring_log_monitoring (usernames : list pystr) (interval : Z)
    (fuel : nat) (s : st W) :
  exists mon,
    log_of (trace (monitoring usernames interval fuel s).2)
    = log_of (trace s) ++ mon
    /\ Forall (fun entry =>
                 is_follow_attempt entry = false
                 /\ entry_username entry ∈ usernames) mon.
Proof.
  set (T := list_to_set usernames : gset pystr).
  assert (Hrun : monitoring_log T (monitoring_entry usernames s)
                   (monitoring usernames interval fuel s).2).
  { change (monitoring usernames interval fuel s)
      with (try_finally
              (try_except (monitor_loop interval fuel) is_KeyboardInterrupt
                 (fun _ =>
                    print "[INFO] Interrupted by user. Exiting monitoring loop."))
              (context_close;; browser_close)
              (monitoring_entry usernames s)).
    apply Pres_try_finally; [tc_solve | |].
    - apply Pres_try_except;
        [tc_solve | apply monitoring_log_loop | intros e; apply Pres_print; tc_solve].
    - apply Pres_bind; [tc_solve | | intros _].
      + apply Pres_context_close; [tc_solve|].
        intros s0. apply monitoring_log_emit. discriminate.
      + apply Pres_browser_close; [tc_solve|].
        intros s0. apply monitoring_log_emit. discriminate. }
  destruct Hrun as (_ & mon & Hl & Hall); [reflexivity|].
  exists mon. split.
  - rewrite Hl. unfold monitoring_entry. cbn [trace].
    rewrite log_of_snoc_print. reflexivity.
  - eapply Forall_impl; [exact Hall|]. intros entry [Hk Hu].
    split; [exact Hk|]. apply elem_of_list_to_set in Hu. exact Hu.
Qed.

(** The log of a run.  Whatever the page does and however the run ends,
    what the controller appends to the log is: the [follow_attempt]s of
    the first [k] usernames of the Target List, in order, followed by
    monitoring entries, none of which is a [follow_attempt] and each of
    which is about a username of the Target List; and there are monitoring
    entries only if the follow pass covered the whole list. *)
Theorem run_log_shape (data : json) (usernames : list pystr)
    (interval batch_size : Z) (fuel : nat) (s : st W) :
  load_usernames data = Loaded usernames ->
  exists k performed mon,
    k <= List.length usernames
    /\ List.length performed = k
    /\ log_of (trace (follow_then_unfollow_loop (Content data) interval
                        batch_size fuel s).2)
       = log_of (trace s)
         ++ attempts (List.length usernames) 1 (take k usernames) performed
         ++ mon
    /\ Forall (fun entry =>
                 is_follow_attempt entry = false
                 /\ entry_username entry ∈ usernames) mon
    /\ (mon <> [] -> k = List.length usernames).
Proof.
  intros Hload.
  assert (Hbody :
            exists k performed mon,
              k <= List.length usernames
              /\ List.length performed = k
              /\ log_of (trace (follow_and_monitor (Content data) interval
                                  batch_size fuel s).2)
                 = log_of (trace s)
                   ++ attempts (List.length usernames) 1 (take k usernames)
                        performed
                   ++ mon
              /\ Forall (fun entry =>
                           is_follow_attempt entry = false
                           /\ entry_username entry ∈ usernames) mon
              /\ (mon <> [] -> k = List.length usernames)).
  { unfold follow_and_monitor. rewrite Hload.
    unfold bind at 1 2, print at 1 2, emit at 1 2. unfold bind at 1.
    set (s0 := St _ _ _).
    assert (Hl0 : log_of (trace s0) = log_of (trace s)).
    { subst s0. cbn [trace]. rewrite !log_of_snoc_print. reflexivity. }
    destruct (follow_pass (List.length usernames) batch_size 1 usernames s0)
      as [r s1] eqn:Hpass.
    destruct (follow_pass_log_prefix _ _ _ _ _ _ _ Hpass)
      as (k & performed & Hk & Hlen & Hl1 & Hok).
    destruct r as [[]|e|].
    - unfold bind at 1, print at 1, emit at 1.
      destruct (monitoring_log_monitoring usernames interval fuel
                  (St (world s1)
                      (trace s1 ++ [Print "[INFO] Initial follow pass finished."])
                      (followed_set s1))) as (mon & Hl2 & Hall).
      exists k, performed, mon.
      split; [exact Hk|]. split; [exact Hlen|]. split; [|split].
      + rewrite Hl2. cbn [trace]. rewrite log_of_snoc_print, Hl1, Hl0.
        rewrite <- app_assoc. reflexivity.
      + exact Hall.
      + intros _. apply Hok. reflexivity.
    - exists k, performed, []. cbn [snd].
      split; [exact Hk|]. split; [exact Hlen|]. split; [|split].
      + rewrite Hl1, Hl0, app_nil_r. reflexivity.
      + constructor.
      + intros Hne. contradiction.
    - exists k, performed, []. cbn [snd].
      split; [exact Hk|]. split; [exact Hlen|]. split; [|split].
      + rewrite Hl1, Hl0, app_nil_r. reflexivity.
      + constructor.
      + intros Hne. contradiction. }
  destruct Hbody as (k & performed & mon & Hk & Hlen & Hl & Hall & Hmon).
  exists k, performed, mon.
  split; [exact Hk|]. split; [exact Hlen|]. split; [|split; assumption].
  rewrite <- Hl. unfold follow_then_unfollow_loop, try_finally, emit.
  destruct (follow_and_monitor (Content data) interval batch_size fuel s)
    as [[[]|e|] s1]; cbn [snd trace]; try reflexivity;
    apply log_of_app_other.
Qed.

End RunLog.

(** Two usernames on the friendly page. *)
Lemma run_log_shape_witness :
  exists k performed mon,
    k <= List.length [str "a"; str "b"]
    /\ List.length performed = k
    /\ log_of (trace (follow_then_unfollow_loop (D := sim_driver friendly)
                        (Content (JList [JStr (str "@a"); JStr (str "b")]))
                        DEFAULT_INTERVAL DEFAULT_BATCH_SIZE 2 start).2)
       = log_of (trace start)
         ++ attempts (List.length [str "a"; str "b"]) 1
              (take k [str "a"; str "b"]) performed
         ++ mon
    /\ Forall (fun entry =>
                 is_follow_attempt entry = false
                 /\ entry_username entry ∈ [str "a"; str "b"]) mon
    /\ (mon <> [] -> k = List.length [str "a"; str "b"]).
Proof.
  apply (run_log_shape (D := sim_driver friendly)).
  reflexivity.
Defined.

(** ** Login check (lines 43-55) *)

Section LoginCheck.

Context {W : Type} {D : LoginDriver W}.

Lemma login_check_run (s s' : st W) (r : res bool) :
  navigate_home_and_check_login s = (r, s') ->
  (forall e,
      r = Raise e ->
      (is_Exception e = false
       /\ exists w, page_goto home_url 45000%Z (world s) = (Raises e, w))
      \/ (exists w w', page_wait_for_timeout 800%Z w = (Raises e, w'))
      \/ (exists sel w w', page_query_selector sel w = (Raises e, w')))
  /\ (r = Ok true ->
      exists w w',
        page_query_selector "svg[aria-label='Profile']" w = (Returns true, w')
        \/ (page_query_selector "nav" w = (Returns true, w')
            /\ exists w'',
                page_query_selector "text=Log in" w' = (Returns false, w''))).
Proof.
  unfold navigate_home_and_check_login. intros Hrun.
  unfold bind at 1, try_except, call at 1 in Hrun.
  destruct (page_goto home_url 45000%Z (world s)) as [[[]|e0] w0] eqn:Hgoto.
  - cbn [world trace followed_set] in Hrun.
    unfold bind at 1, call at 1 in Hrun. cbn [world trace followed_set] in Hrun.
    destruct (page_wait_for_timeout 800%Z w0) as [[[]|e1] w1] eqn:Hwait.
    + unfold bind at 1, call at 1 in Hrun.
      cbn [world trace followed_set] in Hrun.
      destruct (page_query_selector "svg[aria-label='Profile']" w1)
        as [[[|]|e2] w2] eqn:Hq1.
      * injection Hrun as <- _. split; [discriminate|].
        intros _. exists w1, w2. left. exact Hq1.
      * unfold bind at 1, call at 1 in Hrun.
        cbn [world trace followed_set] in Hrun.
        destruct (page_query_selector "nav" w2) as [[[|]|e3] w3] eqn:Hq2.
        -- unfold bind at 1, call at 1 in Hrun.
           cbn [world trace followed_set] in Hrun.
           destruct (page_query_selector "text=Log in" w3)
             as [[[|]|e4] w4] eqn:Hq3; cbn [negb] in Hrun;
             injection Hrun as <- _.
           ++ split; discriminate.
           ++ split; [discriminate|]. intros _. exists w2, w3.
              right. split; [exact Hq2|]. exists w4. exact Hq3.
           ++ split; [|discriminate]. intros e [= <-].
              right. right. exists "text=Log in"%string, w3, w4. exact Hq3.
        -- injection Hrun as <- _. split; discriminate.
        -- injection Hrun as <- _. split; [|discriminate]. intros e [= <-].
           right. right. exists "nav"%string, w2, w3. exact Hq2.
      * injection Hrun as <- _. split; [|discriminate]. intros e [= <-].
        right. right.
        exists "svg[aria-label='Profile']"%string, w1, w2. exact Hq1.
    + injection Hrun as <- _. split; [|discriminate]. intros e [= <-].
      right. left. exists w0, w1. exact Hwait.
  - destruct (is_Exception e0) eqn:He0.
    + unfold print, emit in Hrun. cbn [world trace followed_set] in Hrun.
      unfold bind at 1, call at 1 in Hrun.
      cbn [world trace followed_set] in Hrun.
      destruct (page_wait_for_timeout 800%Z w0) as [[[]|e1] w1] eqn:Hwait.
      * unfold bind at 1, call at 1 in Hrun.
        cbn [world trace followed_set] in Hrun.
        destruct (page_query_selector "svg[aria-label='Profile']" w1)
          as [[[|]|e2] w2] eqn:Hq1.
        -- injection Hrun as <- _. split; [discriminate|].
           intros _. exists w1, w2. left. exact Hq1.
        -- unfold bind at 1, call at 1 in Hrun.
           cbn [world trace followed_set] in Hrun.
           destruct (page_query_selector "nav" w2) as [[[|]|e3] w3] eqn:Hq2.
           ++ unfold bind at 1, call at 1 in Hrun.
              cbn [world trace followed_set] in Hrun.
              destruct (page_query_selector "text=Log in" w3)
                as [[[|]|e4] w4] eqn:Hq3; cbn [negb] in Hrun;
                injection Hrun as <- _.
              ** split; discriminate.
              ** split; [discriminate|]. intros _. exists w2, w3.
                 right. split; [exact Hq2|]. exists w4. exact Hq3.
              ** split; [|discriminate]. intros e [= <-].
                 right. right. exists "text=Log in"%string, w3, w4. exact Hq3.
           ++ injection Hrun as <- _. split; discriminate.
           ++ injection Hrun as <- _. split; [|discriminate]. intros e [= <-].
              right. right. exists "nav"%string, w2, w3. exact Hq2.
        -- injection Hrun as <- _. split; [|discriminate]. intros e [= <-].
           right. right.
           exists "svg[aria-label='Profile']"%string, w1, w2. exact Hq1.
      * injection Hrun as <- _. split; [|discriminate]. intros e [= <-].
        right. left. exists w0, w1. exact Hwait.
    + injection Hrun as <- _. split; [|discriminate]. intros e [= <-].
      left. split; [exact He0|]. exists w0. reflexivity.
Qed.

(** The login check.  An [Exception] of the navigation to instagram.com
    never gets out of it: what it raises comes from the navigation only as
    an interrupt or a cancellation, and otherwise from the short wait or
    from one of the queries.  It returns [True] only when the profile icon
    was found, or the navigation bar was found and then no "Log in"
    text. *)
Theorem login_check_contract (s : st W) :
  (forall e s',
      navigate_home_and_check_login s = (Raise e, s') ->
      (is_Exception e = false
       /\ exists w, page_goto home_url 45000%Z (world s) = (Raises e, w))
      \/ (exists w w', page_wait_for_timeout 800%Z w = (Raises e, w'))
      \/ (exists sel w w', page_query_selector sel w = (Raises e, w')))
  /\ (forall s',
         navigate_home_and_check_login s = (Ok true, s') ->
         exists w w',
           page_query_selector "svg[aria-label='Profile']" w = (Returns true, w')
           \/ (page_query_selector "nav" w = (Returns true, w')
               /\ exists w'',
                   page_query_selector "text=Log in" w' = (Returns false, w''))).
Proof.
  split.
  - intros e s' Hrun.
    apply (proj1 (login_check_run s s' (Raise e) Hrun) e eq_refl).
  - intros s' Hrun.
    apply (proj2 (login_check_run s s' (Ok true) Hrun) eq_refl).
Qed.

End LoginCheck.

(** instagram.com cannot be reached: the check still runs and answers
    [False] on the logged-out page. *)
Example login_check_unreachable :
  (navigate_home_and_check_login (D := sim_login_driver logged_out) start).1
  = Ok false.
Proof. reflexivity. Qed.

(** The friendly page shows the profile icon. *)
Lemma login_check_contract_witness :
  exists w w',
    page_query_selector (Driver := sim_driver friendly)
      "svg[aria-label='Profile']" w = (Returns true, w')
    \/ (page_query_selector (Driver := sim_driver friendly) "nav" w
        = (Returns true, w')
        /\ exists w'',
            page_query_selector (Driver := sim_driver friendly)
              "text=Log in" w' = (Returns false, w'')).
Proof.
  eapply (proj2 (login_check_contract (D := sim_login_driver friendly) start)).
  reflexivity.
Defined.
